(** * ws: lib/WebSocket.js -- the session state machine, the queue gate and
      the client handshake, as a shallow embedding.

    The JavaScript object [WebSocket] becomes a record that is threaded
    through a small state/exception/writer monad.  Everything the session
    does to its collaborators (the Sender, the socket, the event listeners,
    user callbacks) is written to an effect log, in program order.  The
    collaborators themselves (Sender.js, Receiver.js, node's net, http,
    events, crypto) are not part of lib/WebSocket.js; what they send back to
    the session arrives as an [Input]. *)

From Stdlib Require Import List Bool String Ascii NArith ZArith Lia DecimalString.
Import ListNotations.

Set Implicit Arguments.

(* ------------------------------------------------------------------ *)
(** ** Node primitives used by the constructor *)
(* ------------------------------------------------------------------ *)

(** [crypto.createHash('sha1')] and [Buffer#toString('base64')], on byte
    lists.  Words are 32-bit values kept in [N]; every addition and left
    rotation is reduced back to 32 bits. *)
Module Crypto.

Local Open Scope N_scope.

Definition byte := N.

Definition bytes_of_string (s : string) : list byte :=
  map N_of_ascii (list_ascii_of_string s).

Definition mask32 : N := 0xFFFFFFFF.
Definition w32 (x : N) : N := N.land x mask32.
Definition add32 (a b : N) : N := w32 (a + b).
Definition rotl (n x : N) : N :=
  w32 (N.lor (N.shiftl x n) (N.shiftr x (32 - n))).
Definition not32 (x : N) : N := N.lxor x mask32.

Fixpoint be_bytes (k : nat) (x : N) : list byte :=
  match k with
  | O => []
  | S k' => N.land (N.shiftr x (8 * N.of_nat k')) 0xFF :: be_bytes k' x
  end.

Definition pad (msg : list byte) : list byte :=
  let len := N.of_nat (List.length msg) in
  let zeros := N.to_nat ((119 - len mod 64) mod 64) in
  (msg ++ 0x80 :: repeat 0 zeros ++ be_bytes 8 (8 * len))%list.

Fixpoint words (fuel : nat) (bs : list byte) : list N :=
  match fuel, bs with
  | S f, b0 :: b1 :: b2 :: b3 :: rest =>
      (N.shiftl b0 24 + N.shiftl b1 16 + N.shiftl b2 8 + b3) :: words f rest
  | _, _ => []
  end.

Fixpoint blocks (fuel : nat) (ws : list N) : list (list N) :=
  match fuel, ws with
  | S f, _ :: _ => firstn 16 ws :: blocks f (skipn 16 ws)
  | _, _ => []
  end.

(** The message schedule, newest word first while it is being extended. *)
Fixpoint extend (k : nat) (rev_w : list N) : list N :=
  match k with
  | O => rev_w
  | S k' =>
      let x := N.lxor (N.lxor (nth 2 rev_w 0) (nth 7 rev_w 0))
                      (N.lxor (nth 13 rev_w 0) (nth 15 rev_w 0)) in
      extend k' (rotl 1 x :: rev_w)
  end.

Definition schedule (block : list N) : list N := rev (extend 64 (rev block)).

Record regs := Regs { ra : N; rb : N; rc : N; rd : N; re : N }.

Definition round (t : N) (w : N) (r : regs) : regs :=
  let '(Regs a b c d e) := r in
  let '(f, k) :=
    if t <? 20 then (N.lor (N.land b c) (N.land (not32 b) d), 0x5A827999)
    else if t <? 40 then (N.lxor (N.lxor b c) d, 0x6ED9EBA1)
    else if t <? 60 then
      (N.lor (N.lor (N.land b c) (N.land b d)) (N.land c d), 0x8F1BBCDC)
    else (N.lxor (N.lxor b c) d, 0xCA62C1D6) in
  let temp := add32 (add32 (add32 (add32 (rotl 5 a) f) e) k) w in
  Regs temp a (rotl 30 b) c d.

Fixpoint rounds (t : N) (ws : list N) (r : regs) : regs :=
  match ws with
  | [] => r
  | w :: ws' => rounds (t + 1) ws' (round t w r)
  end.

Definition compress (h : regs) (block : list N) : regs :=
  let r := rounds 0 (schedule block) h in
  Regs (add32 (ra h) (ra r)) (add32 (rb h) (rb r)) (add32 (rc h) (rc r))
       (add32 (rd h) (rd r)) (add32 (re h) (re r)).

Definition init : regs :=
  Regs 0x67452301 0xEFCDAB89 0x98BADCFE 0x10325476 0xC3D2E1F0.

Definition sha1 (msg : list byte) : list byte :=
  let p := pad msg in
  let h := fold_left compress (blocks (List.length p) (words (List.length p) p)) init in
  (be_bytes 4 (ra h) ++ be_bytes 4 (rb h) ++ be_bytes 4 (rc h)
    ++ be_bytes 4 (rd h) ++ be_bytes 4 (re h))%list.

Definition alphabet : string :=
  "ABCDEFGHIJKLMNOPQRSTUVWXYZabcdefghijklmnopqrstuvwxyz0123456789+/".

Definition sextet (n : N) : ascii :=
  match String.get (N.to_nat (N.land n 63)) alphabet with
  | Some c => c
  | None => "="%char
  end.

Fixpoint base64 (bs : list byte) : string :=
  match bs with
  | [] => EmptyString
  | [a] =>
      String (sextet (N.shiftr a 2))
        (String (sextet (N.shiftl a 4)) "==")
  | [a; b] =>
      String (sextet (N.shiftr a 2))
        (String (sextet (N.lor (N.shiftl a 4) (N.shiftr b 4)))
           (String (sextet (N.shiftl b 2)) "="))
  | a :: b :: c :: rest =>
      String (sextet (N.shiftr a 2))
        (String (sextet (N.lor (N.shiftl a 4) (N.shiftr b 4)))
           (String (sextet (N.lor (N.shiftl b 2) (N.shiftr c 6)))
              (String (sextet c) (base64 rest))))
  end.

Definition hex_digit (n : N) : ascii :=
  match String.get (N.to_nat n) "0123456789abcdef" with
  | Some c => c
  | None => "?"%char
  end.

Fixpoint hex (bs : list byte) : string :=
  match bs with
  | [] => EmptyString
  | b :: rest => String (hex_digit (N.shiftr b 4)) (String (hex_digit (N.land b 15)) (hex rest))
  end.

(** [new Buffer(str).toString('base64')] *)
Definition base64_of_string (s : string) : string := base64 (bytes_of_string s).

(** [createHash('sha1').update(str).digest('base64')] *)
Definition sha1_base64 (s : string) : string := base64 (sha1 (bytes_of_string s)).

(** Decimal rendering of a non-negative integer, as string concatenation
    with a number does. *)
Definition decimal (n : N) : string := NilEmpty.string_of_uint (N.to_uint n).

End Crypto.

(* ------------------------------------------------------------------ *)
(** ** JavaScript values that cross the API *)
(* ------------------------------------------------------------------ *)

Inductive JsData :=
| DUndefined
| DNull
| DBool (b : bool)
| DNumber (z : Z)
| DNaN
| DString (s : string)
| DBuffer (bytes : list N)
| DReadStream (id : nat).

(** [!!v] *)
Definition truthy (v : JsData) : bool :=
  match v with
  | DUndefined | DNull | DNaN => false
  | DBool b => b
  | DNumber z => negb (Z.eqb z 0)
  | DString s => negb (String.eqb s "")
  | DBuffer _ | DReadStream _ => true
  end.

(** [a || b] *)
Definition js_or (a b : JsData) : JsData := if truthy a then a else b.

(** [v === true] *)
Definition strictly_true (v : JsData) : bool :=
  match v with DBool true => true | _ => false end.

(** [typeof v !== 'undefined'] *)
Definition defined (v : JsData) : bool :=
  match v with DUndefined => false | _ => true end.

(** [v instanceof fs.ReadStream] *)
Definition instanceof_ReadStream (v : JsData) : bool :=
  match v with DReadStream _ => true | _ => false end.

(** [v && v.length > 0] *)
Definition non_empty (v : JsData) : bool :=
  match v with
  | DString s => negb (String.eqb s "")
  | DBuffer bytes => match bytes with [] => false | _ :: _ => true end
  | _ => false
  end.

Inductive JsError :=
| Error (message : string)   (* new Error(message) *)
| Raw (v : JsData).          (* any other value handed to an error channel *)

Definition not_opened : JsError := Error "not opened".
Definition no_callback : JsError := Error "callback must be provided".
Definition invalid_url : JsError := Error "invalid url".
Definition unsupported_version : JsError := Error "unsupported protocol version".
Definition invalid_server_key : JsError := Raw (DString "invalid server key").

(** A user function, known by an identifier. *)
Definition Callback := nat.

(** The options object of send/ping/pong/stream ("Members - mask: boolean,
    binary: boolean"); [None] is a field that is undefined.  The object is
    kept by value: every place that hands it to the Sender writes [fin]
    (and [mask], when undefined) immediately before the call, so the record
    logged with a Sender call is the object as the Sender receives it.  That
    the caller's own object is written too is not shown to the caller. *)
Record Options := { mask : option bool; binary : option bool; fin : option bool }.

Definition empty_options : Options := {| mask := None; binary := None; fin := None |}.
Definition set_fin (b : bool) (o : Options) : Options :=
  {| mask := mask o; binary := binary o; fin := Some b |}.
Definition set_mask (b : bool) (o : Options) : Options :=
  {| mask := Some b; binary := binary o; fin := fin o |}.

(** The second argument of send and stream: absent, an object, or the
    callback itself ([typeof options == 'function']). *)
Inductive OptionsArg :=
| ArgAbsent
| ArgObject (o : Options)
| ArgFunction (cb : Callback).

Definition arg_of (o : option Options) : OptionsArg :=
  match o with Some o' => ArgObject o' | None => ArgAbsent end.

(** [options = options || {}] *)
Definition or_empty (o : option Options) : Options :=
  match o with Some o' => o' | None => empty_options end.

(** The flags object a Receiver event carries. *)
Record Flags := { flags_binary : option bool }.

Definition flags_or_empty (f : option Flags) : Flags :=
  match f with Some f' => f' | None => {| flags_binary := None |} end.

Inductive ReadyState := CONNECTING | OPEN | CLOSING | CLOSED.

Definition ReadyState_code (r : ReadyState) : Z :=
  match r with CONNECTING => 0 | OPEN => 1 | CLOSING => 2 | CLOSED => 3 end%Z.

Definition ReadyState_eqb (a b : ReadyState) : bool :=
  Z.eqb (ReadyState_code a) (ReadyState_code b).

(* ------------------------------------------------------------------ *)
(** ** What the session does to its collaborators *)
(* ------------------------------------------------------------------ *)

(** Modelled from the spec: lib/Sender.js is not part of the sources.  Per
    the Encoder contract a call writes one frame and returns; a write
    failure comes back later as the Sender's 'error' event.  A call is
    therefore logged and never throws. *)
Inductive SenderCall :=
| Sender_send (data : JsData) (options : Options) (cb : option Callback)
| Sender_ping (data : JsData) (options : Options)
| Sender_pong (data : JsData) (options : Options)
| Sender_close (code data : JsData) (mask : bool).

(** Modelled from the spec: the Event Sink is node's EventEmitter, which is
    not part of the sources.  Listeners are application code; an emitted
    event is logged and the listeners return without calling back into the
    session.  The application is taken to listen to 'error': an EventEmitter
    that has no listener for 'error' throws instead of delivering it, which
    [realEmit] and [emit_with] below spell out. *)
Inductive Event :=
| Ev_open
| Ev_message (data : JsData) (flags : Flags)
| Ev_ping (data : JsData) (flags : Flags)
| Ev_error (reason : JsError) (errorCode : JsData)
| Ev_close (args : option (JsData * JsData)).

Inductive Effect :=
| ToSender (c : SenderCall)
| Emit (e : Event)
| SocketEnd                                   (* socket.end() *)
| SocketSetTimeout (ms : Z)
| SocketSetNoDelay (on : bool)
| ReceiverAdd (data : JsData)
| Invoke (cb : Callback) (error : option JsError)       (* cb(error) *)
| InvokeStream (cb : Callback) (options : Options).      (* cb(null, send) *)

(** The closures the session stores or schedules, defunctionalised. *)

(** An entry of [_queue]: [function() { self.send(data, options, cb); }] or
    [function() { self.stream(options, cb); }]; the latter is only pushed
    after line 302 found [cb] to be a function. *)
Inductive Deferred :=
| Deferred_send (data : JsData) (options : option Options) (cb : option Callback)
| Deferred_stream (options : option Options) (cb : Callback).

(** The callback [send] hands to [sendStream] (lines 281-284). *)
Inductive StreamCb :=
| AfterSend (cb : option Callback).

(** The 'data' and 'end' listeners [sendStream] puts on a ReadStream; they
    close over the options and the callback. *)
Record StreamListener :=
  { on_stream : nat; with_options : Options; with_cb : option StreamCb }.

(** A function handed to [process.nextTick]. *)
Inductive Task :=
| Task_upgrade (upgradeHead : JsData)
| Task_executeQueueSends
| Task_streamCallback (cb : Callback) (options : Options).

Record WebSocket := {
  _isServer : bool;
  _readyState : ReadyState;
  _socket : bool;                        (* a socket, or null *)
  _queue : option (list Deferred);       (* an array, or undefined *)
  _closeCode : JsData;
  _closeMessage : JsData;
  expectedServerKey : string;            (* closure variable of the constructor *)
  awaitingUpgrade : bool;                (* the request's 'upgrade' listener has not run *)
  wired : bool;                          (* upgrade() attached the socket, Receiver and Sender listeners *)
  pendingTicks : list Task;
  streamListeners : list StreamListener
}.

Definition set_readyState (r : ReadyState) (w : WebSocket) : WebSocket :=
  {| _isServer := _isServer w; _readyState := r; _socket := _socket w;
     _queue := _queue w; _closeCode := _closeCode w;
     _closeMessage := _closeMessage w; expectedServerKey := expectedServerKey w;
     awaitingUpgrade := awaitingUpgrade w; wired := wired w;
     pendingTicks := pendingTicks w; streamListeners := streamListeners w |}.

Definition set_socket (b : bool) (w : WebSocket) : WebSocket :=
  {| _isServer := _isServer w; _readyState := _readyState w; _socket := b;
     _queue := _queue w; _closeCode := _closeCode w;
     _closeMessage := _closeMessage w; expectedServerKey := expectedServerKey w;
     awaitingUpgrade := awaitingUpgrade w; wired := wired w;
     pendingTicks := pendingTicks w; streamListeners := streamListeners w |}.

Definition set_queue (q : option (list Deferred)) (w : WebSocket) : WebSocket :=
  {| _isServer := _isServer w; _readyState := _readyState w; _socket := _socket w;
     _queue := q; _closeCode := _closeCode w;
     _closeMessage := _closeMessage w; expectedServerKey := expectedServerKey w;
     awaitingUpgrade := awaitingUpgrade w; wired := wired w;
     pendingTicks := pendingTicks w; streamListeners := streamListeners w |}.

Definition set_close (code data : JsData) (w : WebSocket) : WebSocket :=
  {| _isServer := _isServer w; _readyState := _readyState w; _socket := _socket w;
     _queue := _queue w; _closeCode := code;
     _closeMessage := data; expectedServerKey := expectedServerKey w;
     awaitingUpgrade := awaitingUpgrade w; wired := wired w;
     pendingTicks := pendingTicks w; streamListeners := streamListeners w |}.

Definition set_awaitingUpgrade (b : bool) (w : WebSocket) : WebSocket :=
  {| _isServer := _isServer w; _readyState := _readyState w; _socket := _socket w;
     _queue := _queue w; _closeCode := _closeCode w;
     _closeMessage := _closeMessage w; expectedServerKey := expectedServerKey w;
     awaitingUpgrade := b; wired := wired w;
     pendingTicks := pendingTicks w; streamListeners := streamListeners w |}.

Definition set_wired (b : bool) (w : WebSocket) : WebSocket :=
  {| _isServer := _isServer w; _readyState := _readyState w; _socket := _socket w;
     _queue := _queue w; _closeCode := _closeCode w;
     _closeMessage := _closeMessage w; expectedServerKey := expectedServerKey w;
     awaitingUpgrade := awaitingUpgrade w; wired := b;
     pendingTicks := pendingTicks w; streamListeners := streamListeners w |}.

Definition set_pendingTicks (t : list Task) (w : WebSocket) : WebSocket :=
  {| _isServer := _isServer w; _readyState := _readyState w; _socket := _socket w;
     _queue := _queue w; _closeCode := _closeCode w;
     _closeMessage := _closeMessage w; expectedServerKey := expectedServerKey w;
     awaitingUpgrade := awaitingUpgrade w; wired := wired w;
     pendingTicks := t; streamListeners := streamListeners w |}.

Definition set_streamListeners (l : list StreamListener) (w : WebSocket) : WebSocket :=
  {| _isServer := _isServer w; _readyState := _readyState w; _socket := _socket w;
     _queue := _queue w; _closeCode := _closeCode w;
     _closeMessage := _closeMessage w; expectedServerKey := expectedServerKey w;
     awaitingUpgrade := awaitingUpgrade w; wired := wired w;
     pendingTicks := pendingTicks w; streamListeners := l |}.

(* ------------------------------------------------------------------ *)
(** ** The monad: session state, a thrown exception, the effect log *)
(* ------------------------------------------------------------------ *)

Inductive Completion (A : Type) :=
| Normal (a : A)
| Throw (e : JsError).
Arguments Normal {A} a.
Arguments Throw {A} e.

Record Outcome (A : Type) :=
  { completion : Completion A; after : WebSocket; effects : list Effect }.

Definition M (A : Type) : Type := WebSocket -> Outcome A.

Definition ret {A} (a : A) : M A :=
  fun w => {| completion := Normal a; after := w; effects := [] |}.

Definition bind {A B} (m : M A) (k : A -> M B) : M B :=
  fun w =>
    let r := m w in
    match completion r with
    | Normal a =>
        let r' := k a (after r) in
        {| completion := completion r'; after := after r';
           effects := effects r ++ effects r' |}
    | Throw e => {| completion := Throw e; after := after r; effects := effects r |}
    end.

Declare Scope js_scope.
Delimit Scope js_scope with js.
Notation "x <- m ;; k" := (bind m (fun x => k))
  (at level 61, m at next level, right associativity) : js_scope.
Notation "m ;; k" := (bind m (fun _ => k))
  (at level 61, right associativity) : js_scope.
Local Open Scope js_scope.

Definition this : M WebSocket :=
  fun w => {| completion := Normal w; after := w; effects := [] |}.
Definition assign (f : WebSocket -> WebSocket) : M unit :=
  fun w => {| completion := Normal tt; after := f w; effects := [] |}.
Definition tell (e : Effect) : M unit :=
  fun w => {| completion := Normal tt; after := w; effects := [e] |}.
Definition throw {A} (e : JsError) : M A :=
  fun w => {| completion := Throw e; after := w; effects := [] |}.

(** [try { body } catch (e) { handler(e) }] *)
Definition try_catch (body : M unit) (handler : JsError -> M unit) : M unit :=
  fun w =>
    let r := body w in
    match completion r with
    | Normal a => r
    | Throw e =>
        let r' := handler e (after r) in
        {| completion := completion r'; after := after r';
           effects := effects r ++ effects r' |}
    end.

(** [process.nextTick(task)] *)
Definition nextTick (t : Task) : M unit :=
  assign (fun w => set_pendingTicks (pendingTicks w ++ [t]) w).

(* ------------------------------------------------------------------ *)
(** ** lib/WebSocket.js *)
(* ------------------------------------------------------------------ *)

(** [this.readyState != WebSocket.X] *)
Definition readyState_is (r : ReadyState) (w : WebSocket) : bool :=
  ReadyState_eqb (_readyState w) r.

(** The [emit] installed by the constructor (lines 156-160):
    [if (event == 'error') delete this._queue; realEmit.apply(this, arguments)],
    on a session whose application listens to 'error', where [realEmit]
    delivers every event and returns.  [emit_with] below is the same function
    with the listener made a parameter; [emit_with true] is [emit]. *)
Definition emit (e : Event) : M unit :=
  match e with
  | Ev_error _ _ => assign (set_queue None)
  | _ => ret tt
  end ;;
  tell (Emit e).

(** Calling a user callback with an error (or null). *)
Definition invoke (cb : Callback) (error : option JsError) : M unit :=
  tell (Invoke cb error).

(** [WebSocket.prototype.terminate] (lines 339-347). *)
Definition terminate : M unit :=
  w <- this ;;
  if _socket w then
    tell SocketEnd ;;
    assign (set_socket false)
  else if readyState_is CONNECTING w then
    assign (set_readyState CLOSED)
  else ret tt.

(** [WebSocket.prototype.close] (lines 200-218). *)
Definition close (code data : JsData) : M unit :=
  w <- this ;;
  if readyState_is CLOSING w then ret tt
  else if readyState_is CONNECTING w then assign (set_readyState CLOSED)
  else if negb (readyState_is OPEN w) then throw not_opened
  else
    try_catch
      (assign (set_readyState CLOSING) ;;
       assign (set_close code data) ;;
       let mask := negb (_isServer w) in
       tell (ToSender (Sender_close code data mask)) ;;
       terminate)
      (fun e => emit (Ev_error e DUndefined)).

(** [if (typeof options.mask == 'undefined') options.mask = !this._isServer] *)
Definition default_mask (w : WebSocket) (o : Options) : Options :=
  match mask o with
  | None => set_mask (negb (_isServer w)) o
  | Some _ => o
  end.

(** [WebSocket.prototype.ping] (lines 228-233). *)
Definition ping (data : JsData) (options : option Options) : M unit :=
  w <- this ;;
  if negb (readyState_is OPEN w) then throw not_opened
  else
    let options := or_empty options in
    let options := default_mask w options in
    tell (ToSender (Sender_ping data options)).

(** [WebSocket.prototype.pong] (lines 243-248). *)
Definition pong (data : JsData) (options : option Options) : M unit :=
  w <- this ;;
  if negb (readyState_is OPEN w) then throw not_opened
  else
    let options := or_empty options in
    let options := default_mask w options in
    tell (ToSender (Sender_pong data options)).

(** [startQueue] (lines 463-465). *)
Definition startQueue : M unit :=
  assign (fun w =>
    set_queue (Some (match _queue w with Some q => q | None => [] end)) w).

(** [this._queue.push(f)] *)
Definition queue_push (q : list Deferred) (d : Deferred) : M unit :=
  assign (set_queue (Some (q ++ [d]))).

(** [sendStream] (lines 476-496) registers the two listeners. *)
Definition sendStream (stream : nat) (options : Options) (cb : option StreamCb)
  : M unit :=
  assign (fun w =>
    set_streamListeners
      (streamListeners w ++
         [{| on_stream := stream; with_options := options; with_cb := cb |}]) w).

(** [if (typeof options == 'function') { cb = options; options = {}; }] *)
Definition shift_arguments (options : OptionsArg) (cb : option Callback)
  : option Options * option Callback :=
  match options with
  | ArgFunction f => (Some empty_options, Some f)
  | ArgObject o => (Some o, cb)
  | ArgAbsent => (None, cb)
  end.

(** [WebSocket.prototype.send] (lines 259-287). *)
Definition send (data : JsData) (options : OptionsArg) (cb : option Callback)
  : M unit :=
  let '(options, cb) := shift_arguments options cb in
  w <- this ;;
  if negb (readyState_is OPEN w) then
    match cb with
    | Some f => invoke f (Some not_opened)
    | None => throw not_opened
    end
  else
    let data := if negb (truthy data) then DString "" else data in
    match _queue w with
    | Some q => queue_push q (Deferred_send data options cb)
    | None =>
        let options := or_empty options in
        let options := set_fin true options in
        let options := default_mask w options in
        match data with
        | DReadStream stream =>
            startQueue ;;
            sendStream stream options (Some (AfterSend cb))
        | _ => tell (ToSender (Sender_send data options cb))
        end
    end.

(** [WebSocket.prototype.stream] (lines 297-331), up to the first
    [process.nextTick]. *)
Definition stream (options : OptionsArg) (cb : option Callback) : M unit :=
  let '(options, cb) := shift_arguments options cb in
  match cb with
  | None => throw no_callback
  | Some f =>
      w <- this ;;
      if negb (readyState_is OPEN w) then
        match cb with
        | Some f => invoke f (Some not_opened)
        | None => throw not_opened
        end
      else
        match _queue w with
        | Some q => queue_push q (Deferred_stream options f)
        | None =>
            let options := or_empty options in
            let options := default_mask w options in
            startQueue ;;
            nextTick (Task_streamCallback f options)
        end
  end.

(** Running one entry of the queue. *)
Definition run_deferred (d : Deferred) : M unit :=
  match d with
  | Deferred_send data options cb => send data (arg_of options) cb
  | Deferred_stream options cb => stream (arg_of options) (Some cb)
  end.

(** [for (var i = 0, l = queue.length; i < l; ++i) queue[i]()] *)
Fixpoint for_each (queue : list Deferred) : M unit :=
  match queue with
  | [] => ret tt
  | d :: rest => run_deferred d ;; for_each rest
  end.

(** [executeQueueSends] (lines 467-474). *)
Definition executeQueueSends : M unit :=
  w <- this ;;
  match _queue w with
  | None => ret tt
  | Some queue =>
      assign (set_queue None) ;;
      for_each queue
  end.

(** The [send] function that [stream] hands to its callback (lines
    317-329); [options] and [cb] are the variables it closes over.  [cb]
    passed the test of line 302, so [typeof cb == 'function'] on line 326
    holds and the handler calls it. *)
Definition stream_send (options : Options) (cb : Callback)
    (data final : JsData) : M unit :=
  try_catch
    (w <- this ;;
     if negb (readyState_is OPEN w) then throw not_opened
     else
       let options := set_fin (strictly_true final) options in
       tell (ToSender (Sender_send data options None)) ;;
       if negb (truthy final) then nextTick (Task_streamCallback cb options)
       else executeQueueSends)
    (fun e => invoke cb (Some e)).

(** The [StreamCb] of [send]:
    [function(error) { process.nextTick(function() { executeQueueSends(self); });
                       if (typeof cb == 'function') cb(error); }] *)
Definition apply_StreamCb (k : StreamCb) (error : option JsError) : M unit :=
  match k with
  | AfterSend cb =>
      nextTick Task_executeQueueSends ;;
      match cb with
      | Some f => invoke f error
      | None => ret tt
      end
  end.

(** The 'data' listener of [sendStream] (lines 477-485). *)
Definition stream_on_data (l : StreamListener) (data : JsData) : M unit :=
  w <- this ;;
  if negb (readyState_is OPEN w) then
    match with_cb l with
    | Some k => apply_StreamCb k (Some not_opened)
    | None => emit (Ev_error not_opened DUndefined)
    end
  else
    let options := set_fin false (with_options l) in
    tell (ToSender (Sender_send data options None)).

(** The 'end' listener of [sendStream] (lines 486-495). *)
Definition stream_on_end (l : StreamListener) : M unit :=
  w <- this ;;
  if negb (readyState_is OPEN w) then
    match with_cb l with
    | Some k => apply_StreamCb k (Some not_opened)
    | None => emit (Ev_error not_opened DUndefined)
    end
  else
    let options := set_fin true (with_options l) in
    tell (ToSender (Sender_send DNull options None)) ;;
    match with_cb l with
    | Some k => apply_StreamCb k None
    | None => ret tt
    end.

(** The socket's 'end' and 'close' listeners (lines 412-421). *)
Definition socket_on_end : M unit :=
  w <- this ;;
  if readyState_is CLOSED w then ret tt
  else
    assign (set_readyState CLOSED) ;;
    emit (Ev_close (Some (js_or (_closeCode w) (DNumber 1000),
                          js_or (_closeMessage w) (DString "")))).

(** [field === true] *)
Definition is_true (field : option bool) : bool :=
  match field with
  | Some true => true
  | _ => false
  end.

(** The Receiver's listeners (lines 427-451). *)
Definition receiver_on_text (data : JsData) (flags : option Flags) : M unit :=
  let flags := flags_or_empty flags in
  emit (Ev_message data flags).

Definition receiver_on_binary (data : JsData) (flags : option Flags) : M unit :=
  let flags := flags_or_empty flags in
  let flags := {| flags_binary := Some true |} in
  emit (Ev_message data flags).

Definition receiver_on_ping (data : JsData) (flags : option Flags) : M unit :=
  let flags := flags_or_empty flags in
  w <- this ;;
  pong data (Some {| mask := Some (negb (_isServer w));
                     binary := Some (is_true (flags_binary flags));
                     fin := None |}) ;;
  emit (Ev_ping data flags).

Definition receiver_on_close (code data : JsData) : M unit :=
  close code data.

Definition receiver_on_error (reason : JsData) (errorCode : JsData) : M unit :=
  (if defined errorCode then close errorCode (DString "") else ret tt) ;;
  emit (Ev_error (Raw reason) errorCode).

(** [upgrade] (lines 407-461). *)
Definition upgrade (upgradeHead : JsData) : M unit :=
  assign (set_socket true) ;;
  tell (SocketSetTimeout 0) ;;
  tell (SocketSetNoDelay true) ;;
  assign (set_wired true) ;;
  assign (set_readyState OPEN) ;;
  emit Ev_open ;;
  if non_empty upgradeHead then tell (ReceiverAdd upgradeHead) else ret tt.

(** The request's 'upgrade' listener (lines 135-150). *)
Definition request_on_upgrade (serverKey : option string) (upgradeHead : JsData)
  : M unit :=
  w <- this ;;
  if readyState_is CLOSED w then
    emit (Ev_close None) ;;
    tell SocketEnd
  else
    match serverKey with
    | None =>
        emit (Ev_error invalid_server_key DUndefined) ;;
        tell SocketEnd
    | Some k =>
        if negb (String.eqb k (expectedServerKey w)) then
          emit (Ev_error invalid_server_key DUndefined) ;;
          tell SocketEnd
        else upgrade upgradeHead
    end.

(** What node's [EventEmitter.prototype.emit] throws for an 'error' event
    that nobody listens to: the argument itself when it is an Error object,
    and otherwise a new Error saying that the event was not caught. *)
Definition uncaught (reason : JsError) : JsError :=
  match reason with
  | Error message => Error message
  | Raw _ => Error "Uncaught, unspecified 'error' event."
  end.

(** [realEmit] (line 157), node's [EventEmitter.prototype.emit].
    [listening] tells whether the application has a listener for 'error';
    every other event is delivered, or dropped, without an exception. *)
Definition realEmit (listening : bool) (e : Event) : M unit :=
  match e with
  | Ev_error reason _ =>
      if listening then tell (Emit e) else throw (uncaught reason)
  | _ => tell (Emit e)
  end.

(** The [emit] of lines 156-160 over [realEmit]: the queue is deleted
    before the event is handed over, so also when the hand-over throws. *)
Definition emit_with (listening : bool) (e : Event) : M unit :=
  match e with
  | Ev_error _ _ => assign (set_queue None)
  | _ => ret tt
  end ;;
  realEmit listening e.


(** The constructor (lines 29-167).  For a client, [host] is what
    [url.parse(address).host] gives, [protocolVersion] the merged option
    and [now] the value of [Date.now()]. *)
Definition GUID : string := "258EAFA5-E914-47DA-95CA-C5AB0DC85B11".

Definition session_key (protocolVersion now : N) : string :=
  Crypto.base64_of_string
    (Crypto.decimal protocolVersion ++ "-" ++ Crypto.decimal now).

Definition expected_accept (key : string) : string :=
  Crypto.sha1_base64 (key ++ GUID).

Definition new_server (upgradeHead : JsData) : WebSocket :=
  {| _isServer := true; _readyState := CONNECTING; _socket := false;
     _queue := None; _closeCode := DUndefined; _closeMessage := DUndefined;
     expectedServerKey := ""; awaitingUpgrade := false; wired := false;
     pendingTicks := [Task_upgrade upgradeHead]; streamListeners := [] |}.

Definition new_client (host : option string) (protocolVersion now : N)
  : Completion WebSocket :=
  match host with
  | None => Throw invalid_url
  | Some h =>
      if String.eqb h "" then Throw invalid_url
      else if negb (N.eqb protocolVersion 8) && negb (N.eqb protocolVersion 13)
      then Throw unsupported_version
      else
        let key := session_key protocolVersion now in
        let expectedServerKey := expected_accept key in
        Normal
          {| _isServer := false; _readyState := CONNECTING; _socket := false;
             _queue := None; _closeCode := DUndefined;
             _closeMessage := DUndefined;
             expectedServerKey := expectedServerKey;
             awaitingUpgrade := true; wired := false;
             pendingTicks := []; streamListeners := [] |}
  end.

(* ------------------------------------------------------------------ *)
(** ** The session in its environment *)
(* ------------------------------------------------------------------ *)

(** One entry into the session's code: a call of the public API, a turn of
    the event loop, or an event of a collaborator that has a listener. *)
Inductive Input :=
| Call_close (code data : JsData)
| Call_ping (data : JsData) (options : option Options)
| Call_pong (data : JsData) (options : option Options)
| Call_send (data : JsData) (options : OptionsArg) (cb : option Callback)
| Call_stream (options : OptionsArg) (cb : option Callback)
| Call_terminate
| Call_stream_send (options : Options) (cb : Callback) (data final : JsData)
| Tick
| Request_error (e : JsError)
| Request_upgrade (serverKey : option string) (upgradeHead : JsData)
| Socket_end
| Socket_close
| Receiver_text (data : JsData) (flags : option Flags)
| Receiver_binary (data : JsData) (flags : option Flags)
| Receiver_ping (data : JsData) (flags : option Flags)
| Receiver_pong (data : JsData) (flags : option Flags)
| Receiver_close (code data : JsData)
| Receiver_error (reason errorCode : JsData)
| Sender_error (e : JsError)
| Stream_data (stream : nat) (data : JsData)
| Stream_end (stream : nat).

Definition run_task (t : Task) : M unit :=
  match t with
  | Task_upgrade upgradeHead => upgrade upgradeHead
  | Task_executeQueueSends => executeQueueSends
  | Task_streamCallback cb options => tell (InvokeStream cb options)
  end.

(** The listeners of one ReadStream, in the order they were added. *)
Fixpoint dispatch (ls : list StreamListener) (stream : nat)
    (listener : StreamListener -> M unit) : M unit :=
  match ls with
  | [] => ret tt
  | l :: rest =>
      (if Nat.eqb (on_stream l) stream then listener l else ret tt) ;;
      dispatch rest stream listener
  end.

(** The socket, the Receiver and the Sender have listeners once [upgrade]
    ran; the request has its 'upgrade' listener until it fires.  Nothing
    listens to the Receiver's 'pong'. *)
Definition listeners (i : Input) (w : WebSocket) : M unit :=
  match i with
  | Call_close code data => close code data
  | Call_ping data options => ping data options
  | Call_pong data options => pong data options
  | Call_send data options cb => send data options cb
  | Call_stream options cb => stream options cb
  | Call_terminate => terminate
  | Call_stream_send options cb data final => stream_send options cb data final
  | Tick =>
      match pendingTicks w with
      | [] => ret tt
      | t :: rest => assign (set_pendingTicks rest) ;; run_task t
      end
  | Request_error e =>
      if negb (_isServer w) then emit (Ev_error e DUndefined) else ret tt
  | Request_upgrade serverKey upgradeHead =>
      if negb (_isServer w) && awaitingUpgrade w then
        assign (set_awaitingUpgrade false) ;;
        request_on_upgrade serverKey upgradeHead
      else ret tt
  | Socket_end | Socket_close =>
      if wired w then socket_on_end else ret tt
  | Receiver_text data flags =>
      if wired w then receiver_on_text data flags else ret tt
  | Receiver_binary data flags =>
      if wired w then receiver_on_binary data flags else ret tt
  | Receiver_ping data flags =>
      if wired w then receiver_on_ping data flags else ret tt
  | Receiver_pong _ _ => ret tt
  | Receiver_close code data =>
      if wired w then receiver_on_close code data else ret tt
  | Receiver_error reason errorCode =>
      if wired w then receiver_on_error reason errorCode else ret tt
  | Sender_error e =>
      if wired w then emit (Ev_error e DUndefined) else ret tt
  | Stream_data stream data =>
      dispatch (streamListeners w) stream (fun l => stream_on_data l data)
  | Stream_end stream =>
      dispatch (streamListeners w) stream stream_on_end
  end.

Definition step (i : Input) : M unit :=
  w <- this ;;
  listeners i w.

(** A sequence of entries; an exception that escapes one entry is the
    caller's and does not stop the following ones. *)
Fixpoint run (inputs : list Input) (w : WebSocket) : WebSocket * list Effect :=
  match inputs with
  | [] => (w, [])
  | i :: rest =>
      let r := step i w in
      let '(w', es) := run rest (after r) in
      (w', effects r ++ es)
  end.

Definition sender_calls (es : list Effect) : list SenderCall :=
  flat_map (fun e => match e with ToSender c => [c] | _ => [] end) es.

Definition events (es : list Effect) : list Event :=
  flat_map (fun e => match e with Emit ev => [ev] | _ => [] end) es.

(** An open server-side session: constructed, then one turn of the loop. *)
Definition open_server : WebSocket := fst (run [Tick] (new_server DUndefined)).

(** An open client session: constructed, then the upgrade response with the
    expected accept value. *)
Definition open_client : WebSocket :=
  match new_client (Some "example"%string) 13 1700000000000 with
  | Normal w =>
      fst (run [Request_upgrade (Some (expectedServerKey w)) DUndefined] w)
  | Throw _ => new_server DUndefined
  end.

(* ------------------------------------------------------------------ *)
(** ** Vocabulary of the properties *)
(* ------------------------------------------------------------------ *)

(** The mask bit a Sender call is made with. *)
Definition frame_mask (c : SenderCall) : option bool :=
  match c with
  | Sender_send _ o _ | Sender_ping _ o | Sender_pong _ o => mask o
  | Sender_close _ _ m => Some m
  end.

(** Every Sender call among the effects is made with mask [m]. *)
Definition all_masked (m : bool) (es : list Effect) : Prop :=
  Forall (fun c => frame_mask c = Some m) (sender_calls es).

(** The mask the code settles on for a call with these options: the
    caller's, when the options define one, and the role's otherwise. *)
Definition mask_for (w : WebSocket) (options : option Options) : bool :=
  match mask (or_empty options) with
  | Some m => m
  | None => negb (_isServer w)
  end.

(** [if (!data) data = ''] *)
Definition or_empty_string (data : JsData) : JsData :=
  if negb (truthy data) then DString "" else data.

(** A deferred action that, replayed on an open session without a queue,
    is one call of the Sender: a send of something that is not a
    ReadStream. *)
Definition plain (d : Deferred) : bool :=
  match d with
  | Deferred_send (DReadStream _) _ _ => false
  | Deferred_send _ _ _ => true
  | Deferred_stream _ _ => false
  end.

(** What a deferred action sends when it is replayed on an open session
    without a queue: one Sender call for a plain send, nothing (yet) for a
    streamed send or a stream. *)
Definition replayed (w : WebSocket) (d : Deferred) : list Effect :=
  match d with
  | Deferred_send (DReadStream _) _ _ => []
  | Deferred_send data options cb =>
      [ToSender (Sender_send (or_empty_string data)
                   (default_mask w (set_fin true (or_empty options))) cb)]
  | Deferred_stream _ _ => []
  end.

(** A deferred action as it stands on the queue after a replay deferred it
    again: [send] applies line 269 once more. *)
Definition deferred_again (d : Deferred) : Deferred :=
  match d with
  | Deferred_send data options cb =>
      Deferred_send (or_empty_string data) options cb
  | Deferred_stream options cb => d
  end.

(** The moves of ready_state along the two paths
    Connecting -> Open -> Closing -> Closed and Connecting -> Closed. *)
Definition claimed_move (a b : ReadyState) : bool :=
  match a, b with
  | CONNECTING, OPEN | OPEN, CLOSING | CLOSING, CLOSED | CONNECTING, CLOSED => true
  | _, _ => false
  end.

(** The same, and Open -> Closed. *)
Definition designed_move (a b : ReadyState) : bool :=
  claimed_move a b ||
  match a, b with
  | OPEN, CLOSED => true
  | _, _ => false
  end.

(** The entries on which [upgrade] runs: the turn of the loop that a
    server-side constructor scheduled, and the upgrade response that passes
    the two tests of the client's listener. *)
Definition runs_upgrade (i : Input) (w : WebSocket) : bool :=
  match i with
  | Tick =>
      match pendingTicks w with
      | Task_upgrade _ :: _ => true
      | _ => false
      end
  | Request_upgrade (Some k) _ =>
      negb (_isServer w) && awaitingUpgrade w
      && negb (readyState_is CLOSED w) && String.eqb k (expectedServerKey w)
  | _ => false
  end.

(** [m] relates the session it starts from to the one it leaves, whatever
    the completion. *)
Definition stable (R : WebSocket -> WebSocket -> Prop) {A} (m : M A) : Prop :=
  forall w, R w (after (m w)).

Definition same_readyState (a b : WebSocket) : Prop :=
  _readyState b = _readyState a.

Definition queue_stays_absent (a b : WebSocket) : Prop :=
  _queue a = None -> _queue b = None.

Definition is_error (e : Effect) : bool :=
  match e with
  | Emit (Ev_error _ _) => true
  | _ => false
  end.

(** An 'error' event is among the effects. *)
Definition raises_error (es : list Effect) : bool := existsb is_error es.

(** [m] never emits 'error'. *)
Definition silent {A} (m : M A) : Prop :=
  forall w, raises_error (effects (m w)) = false.

(** When [m] emits 'error', it leaves the session without a queue. *)
Definition error_clears_queue {A} (m : M A) : Prop :=
  forall w, raises_error (effects (m w)) = true -> _queue (after (m w)) = None.

(** The ready states a run goes through, entry by entry. *)
Fixpoint trajectory (inputs : list Input) (w : WebSocket) : list ReadyState :=
  _readyState w ::
  match inputs with
  | [] => []
  | i :: rest => trajectory rest (after (step i w))
  end.

(** Every two consecutive states are equal or a designed move. *)
Fixpoint path (states : list ReadyState) : bool :=
  match states with
  | a :: (b :: _) as rest => (ReadyState_eqb a b || designed_move a b) && path rest
  | _ => true
  end.

Definition is_upgrade (t : Task) : bool :=
  match t with
  | Task_upgrade _ => true
  | _ => false
  end.

(** No call of [upgrade] is waiting for a turn of the loop. *)
Definition no_upgrade_pending (w : WebSocket) : Prop :=
  forallb (fun t => negb (is_upgrade t)) (pendingTicks w) = true.

Definition before_upgrade (w : WebSocket) : Prop :=
  _readyState w = CONNECTING \/ _readyState w = CLOSED.

(** [upgrade] can only still run from the request's listener, on a session
    that is Connecting or Closed. *)
Definition upgrade_in_order (w : WebSocket) : Prop :=
  no_upgrade_pending w /\ (awaitingUpgrade w = true -> before_upgrade w).

Definition keeps_upgrade_order (a b : WebSocket) : Prop :=
  (no_upgrade_pending a -> no_upgrade_pending b) /\
  (awaitingUpgrade b = true ->
   awaitingUpgrade a = true /\ (before_upgrade a -> before_upgrade b)).

(* ------------------------------------------------------------------ *)
(** ** The rest of the constructor: the upgrade request *)
(* ------------------------------------------------------------------ *)

(** What [url.parse(address)] gives the constructor; a field that is null
    or undefined is [None]. *)
Record Url := {
  url_protocol : option string;
  url_host : option string;
  url_hostname : option string;
  url_port : option string;
  url_pathname : option string;
  url_search : option string;
  url_path : option string
}.

(** The merged options of a client: [origin] and [protocol] default to
    null, [protocolVersion] to 13. *)
Record ClientOptions := {
  origin : option string;
  protocolVersion : N;
  protocol : option string
}.

(** [!!s] for a string or null *)
Definition present (s : option string) : bool :=
  match s with
  | Some x => negb (String.eqb x "")
  | None => false
  end.

(** [s || d] for a string or null *)
Definition or_string (s : option string) (d : string) : string :=
  match s with
  | Some x => if String.eqb x "" then d else x
  | None => d
  end.

Inductive HttpModule := http | https.

Record Request := {
  via : HttpModule;
  request_port : JsData;
  request_host : option string;
  request_headers : list (string * JsData);
  request_path : string;
  request_agent : bool          (* node v0.4: an Agent of its own *)
}.

(** [headers[name]] *)
Fixpoint header (name : string) (headers : list (string * JsData))
  : option JsData :=
  match headers with
  | [] => None
  | (n, v) :: rest => if String.eqb n name then Some v else header name rest
  end.

(** [serverUrl.port || 80] *)
Definition port_or_80 (u : Url) : JsData :=
  match url_port u with
  | Some p => if String.eqb p "" then DNumber 80 else DString p
  | None => DNumber 80
  end.

(** Lines 73 and 107-128. *)
Definition requestOptions (isNodeV4 : bool) (u : Url) (o : ClientOptions)
    (key : string) : Request :=
  let httpObj :=
    match url_protocol u with
    | Some p => if String.eqb p "wss:" || String.eqb p "https:" then https else http
    | None => http
    end in
  let headers :=
    [("Connection", DString "Upgrade");
     ("Upgrade", DString "websocket");
     ("Sec-WebSocket-Version", DNumber (Z.of_N (protocolVersion o)));
     ("Sec-WebSocket-Key", DString key)]%string in
  let headers :=
    match protocol o with
    | Some p =>
        if present (protocol o)
        then headers ++ [("Sec-WebSocket-Protocol"%string, DString p)]
        else headers
    | None => headers
    end in
  let path :=
    if isNodeV4
    then (or_string (url_pathname u) "/" ++ or_string (url_search u) "")%string
    else or_string (url_path u) "/" in
  let headers :=
    match origin o with
    | Some org =>
        if present (origin o) then
          if (protocolVersion o <? 13)%N
          then headers ++ [("Sec-WebSocket-Origin"%string, DString org)]
          else headers ++ [("Origin"%string, DString org)]
        else headers
    | None => headers
    end in
  {| via := httpObj; request_port := port_or_80 u;
     request_host := url_hostname u; request_headers := headers;
     request_path := path; request_agent := isNodeV4 |}.

(** The client branch of the constructor (lines 64-154), in the order of
    the source: the session and the request it sends. *)
Definition WebSocket_client (isNodeV4 : bool) (u : Url) (o : ClientOptions)
    (now : N) : Completion (WebSocket * Request) :=
  if negb (present (url_host u)) then Throw invalid_url
  else if negb (N.eqb (protocolVersion o) 8) && negb (N.eqb (protocolVersion o) 13)
  then Throw unsupported_version
  else
    let key := session_key (protocolVersion o) now in
    let expectedServerKey := expected_accept key in
    Normal
      ({| _isServer := false; _readyState := CONNECTING; _socket := false;
          _queue := None; _closeCode := DUndefined;
          _closeMessage := DUndefined;
          expectedServerKey := expectedServerKey;
          awaitingUpgrade := true; wired := false;
          pendingTicks := []; streamListeners := [] |},
       requestOptions isNodeV4 u o key).

(* ------------------------------------------------------------------ *)
(** ** The browser-style properties onopen, onerror, onclose, onmessage *)
(* ------------------------------------------------------------------ *)

(** A function on a list of listeners: one of the application's, or the
    function [message] that the setter of [onmessage] makes (lines 385-390),
    whose [_listener] property is the application's function.  A function
    of the application has no [_listener] property. *)
Inductive Listener :=
| Function (f : Callback)
| Message_wrapper (listener : Callback).

(** node's EventEmitter, as the adapter uses it: [listeners(event)] is the
    list, [on] appends to it, [removeAllListeners(event)] empties it. *)
Definition Emitter := string -> list Listener.

Definition no_listeners : Emitter := fun _ => [].

Definition removeAllListeners (method : string) (e : Emitter) : Emitter :=
  fun m => if String.eqb m method then [] else e m.

Definition on (method : string) (l : Listener) (e : Emitter) : Emitter :=
  fun m => if String.eqb m method then e m ++ [l] else e m.

(** The names the adapter is defined for (line 356). *)
Definition adapter_methods : list string :=
  ["open"; "error"; "close"; "message"]%string.

(** The getter (lines 365-368). *)
Definition get_on (method : string) (e : Emitter) : option Listener :=
  match e method with
  | [] => None
  | l :: _ =>
      Some (match l with
            | Message_wrapper f => Function f
            | Function _ => l
            end)
  end.

(** The setter (lines 378-396); [None] is a value that is not a function. *)
Definition set_on (method : string) (listener : option Callback) (e : Emitter)
  : Emitter :=
  let e := removeAllListeners method e in
  match listener with
  | Some f =>
      if String.eqb method "message" then on method (Message_wrapper f) e
      else on method (Function f) e
  | None => e
  end.

(** How a listener is called when 'message' is emitted with [data] and
    [flags]: with both, or, by the wrapper, with the object [{data: data}]. *)
Inductive Invocation :=
| Called (f : Callback) (data : JsData) (flags : Flags)
| Called_with_event (f : Callback) (data : JsData).

Definition deliver_message (data : JsData) (flags : Flags) (e : Emitter)
  : list Invocation :=
  map (fun l => match l with
                | Function f => Called f data flags
                | Message_wrapper f => Called_with_event f data
                end)
      (e "message"%string).

(* ------------------------------------------------------------------ *)
(** ** Vocabulary of the further properties *)
(* ------------------------------------------------------------------ *)

Definition is_open_event (e : Effect) : bool :=
  match e with
  | Emit Ev_open => true
  | _ => false
  end.

Definition is_close_event (e : Effect) : bool :=
  match e with
  | Emit (Ev_close _) => true
  | _ => false
  end.

(** How many of the effects satisfy [p]. *)
Definition count (p : Effect -> bool) (es : list Effect) : nat :=
  List.length (filter p es).

(** The handshake is still to come or has wired the session exactly once:
    no [upgrade] waits for a turn of the loop, and while the request's
    'upgrade' listener has not run, nothing listens to a socket and the
    session is Connecting or Closed. *)
Definition handshake_in_order (w : WebSocket) : Prop :=
  no_upgrade_pending w /\
  (awaitingUpgrade w = true -> wired w = false /\ before_upgrade w).

(** The 'open' and 'close' events the session can still emit. *)
Definition opens_left (w : WebSocket) : nat :=
  if awaitingUpgrade w then 1 else 0.

Definition closes_left (w : WebSocket) : nat :=
  if awaitingUpgrade w then 1
  else if wired w && negb (readyState_is CLOSED w) then 1 else 0.

(** [m] emits neither 'open' nor 'close' and leaves ready state, wiring and
    the pending handshake as they are. *)
Definition inert {A} (m : M A) : Prop :=
  forall w,
    _readyState (after (m w)) = _readyState w /\
    wired (after (m w)) = wired w /\
    awaitingUpgrade (after (m w)) = awaitingUpgrade w /\
    count is_open_event (effects (m w)) = 0 /\
    count is_close_event (effects (m w)) = 0.

(** [m] calls the Sender only on a session that is Open when it starts. *)
Definition sends_only_when_open {A} (m : M A) : Prop :=
  forall w, _readyState w <> OPEN ->
    sender_calls (effects (m w)) = [] /\ _readyState (after (m w)) <> OPEN.

(** The Sender call of a plain send. *)
Definition frame_of_send (w : WebSocket)
    (s : JsData * option Options * option Callback) : SenderCall :=
  let '(data, options, cb) := s in
  Sender_send (or_empty_string data)
    (default_mask w (set_fin true (or_empty options))) cb.

Definition call_send (s : JsData * option Options * option Callback) : Input :=
  let '(data, options, cb) := s in Call_send data (arg_of options) cb.

Definition not_ReadStream (s : JsData * option Options * option Callback)
  : bool :=
  let '(data, _, _) := s in negb (instanceof_ReadStream data).

(** The callback a deferred action was given. *)
Definition callback_of (d : Deferred) : option Callback :=
  match d with
  | Deferred_send _ _ cb => cb
  | Deferred_stream _ cb => Some cb
  end.

(** The callbacks of the entries before the first one that has none, each
    called with 'not opened'. *)
Fixpoint failed_callbacks (q : list Deferred) : list Effect :=
  match q with
  | [] => []
  | d :: rest =>
      match callback_of d with
      | Some f => Invoke f (Some not_opened) :: failed_callbacks rest
      | None => []
      end
  end.

Definition has_callback (d : Deferred) : bool :=
  match callback_of d with
  | Some _ => true
  | None => false
  end.

(** The queue entry of a send that was deferred. *)
Definition deferred_of (s : JsData * option Options * option Callback)
  : Deferred :=
  let '(data, options, cb) := s in
  Deferred_send (or_empty_string data) options cb.

(** What happens while a ReadStream is being sent: the stream gives a
    chunk, or the application calls [send] again. *)
Definition Meanwhile : Type := JsData + (JsData * option Options * option Callback).

Definition meanwhile_input (id : nat) (x : Meanwhile) : Input :=
  match x with
  | inl chunk => Stream_data id chunk
  | inr s => call_send s
  end.

Definition chunks_of (xs : list Meanwhile) : list JsData :=
  flat_map (fun x => match x with inl c => [c] | inr _ => [] end) xs.

Definition sends_of (xs : list Meanwhile)
  : list (JsData * option Options * option Callback) :=
  flat_map (fun x => match x with inl _ => [] | inr s => [s] end) xs.

(** The session [w] while the ReadStream [id] is being sent with options
    [o] and callback [cb]: [q] on the queue, [ticks] scheduled, and the
    listener of the stream after those that were there. *)
Definition sending (w : WebSocket) (id : nat) (o : Options)
    (cb : option Callback) (q : list Deferred) (ticks : list Task) : WebSocket :=
  set_pendingTicks ticks
    (set_streamListeners
       (streamListeners w ++
          [{| on_stream := id; with_options := o;
              with_cb := Some (AfterSend cb) |}])
       (set_queue (Some q) w)).

(* ================================================================== *)
(** * Properties *)
(* ================================================================== *)

Unset Implicit Arguments.

Example sha1_abc :
  Crypto.hex (Crypto.sha1 (Crypto.bytes_of_string "abc"))
  = "a9993e364706816aba3e25717850c26c9cd0d89d"%string.
Proof. vm_compute. reflexivity. Qed.

Example sha1_two_blocks :
  Crypto.hex (Crypto.sha1 (Crypto.bytes_of_string
     "abcdbcdecdefdefgefghfghighijhijkijkljklmklmnlmnomnopnopq"))
  = "84983e441c3bd26ebaae4aa1f95129e5e54670f1"%string.
Proof. vm_compute. reflexivity. Qed.

Example base64_foobar :
  map Crypto.base64_of_string ["f"; "fo"; "foo"; "foob"; "fooba"; "foobar"]%string
  = ["Zg=="; "Zm8="; "Zm9v"; "Zm9vYg=="; "Zm9vYmE="; "Zm9vYmFy"]%string.
Proof. vm_compute. reflexivity. Qed.

(** The worked example of RFC 6455, section 1.3. *)
Example rfc6455_accept :
  Crypto.sha1_base64
    ("dGhlIHNhbXBsZSBub25jZQ==" ++ "258EAFA5-E914-47DA-95CA-C5AB0DC85B11")
  = "s3pPLMBiTxaQ9kYGzzhZRbK+xOo="%string.
Proof. vm_compute. reflexivity. Qed.

Example decimal_13 : Crypto.decimal 13 = "13"%string.
Proof. reflexivity. Qed.

Example session_key_13 : session_key 13 0 = "MTMtMA=="%string.
Proof. vm_compute. reflexivity. Qed.

(** ** The monad on paper *)

Lemma bind_ret_l {A B} (a : A) (k : A -> M B) (w : WebSocket) :
  bind (ret a) k w = k a w.
Proof. unfold bind, ret; simpl. destruct (k a w); reflexivity. Qed.

Lemma bind_normal {A B} (m : M A) (k : A -> M B) (w w1 : WebSocket) (a : A)
    (es : list Effect) :
  m w = {| completion := Normal a; after := w1; effects := es |} ->
  bind m k w
  = {| completion := completion (k a w1); after := after (k a w1);
       effects := es ++ effects (k a w1) |}.
Proof. intros H. unfold bind. rewrite H. reflexivity. Qed.

Lemma bind_throw {A B} (e : JsError) (k : A -> M B) (w : WebSocket) :
  bind (throw e) k w = throw e w.
Proof. reflexivity. Qed.

Lemma readyState_is_true (r : ReadyState) (w : WebSocket) :
  readyState_is r w = true <-> _readyState w = r.
Proof.
  unfold readyState_is.
  destruct (_readyState w), r; cbv; split; intro H;
    first [reflexivity | discriminate H | now elim H].
Qed.

Lemma readyState_is_false (r : ReadyState) (w : WebSocket) :
  readyState_is r w = false <-> _readyState w <> r.
Proof.
  unfold readyState_is.
  destruct (_readyState w), r; cbv; split; intro H;
    first [reflexivity | discriminate H | now elim H].
Qed.

(** ** The scenarios of the specification, run on the model *)

Example scenario_server_open :
  run [Tick] (new_server DUndefined)
  = (open_server, [SocketSetTimeout 0; SocketSetNoDelay true; Emit Ev_open]).
Proof. reflexivity. Qed.

Example scenario_client_open :
  _readyState open_client = OPEN /\ _isServer open_client = false.
Proof. vm_compute. split; reflexivity. Qed.

Example scenario_queue_ordering :
  sender_calls (snd (run
    [Call_send (DReadStream 0) ArgAbsent None;
     Call_send (DString "X") ArgAbsent None;
     Stream_data 0 (DString "hel"); Stream_data 0 (DString "lo");
     Stream_end 0; Tick] open_server))
  = [Sender_send (DString "hel") {| mask := Some false; binary := None; fin := Some false |} None;
     Sender_send (DString "lo") {| mask := Some false; binary := None; fin := Some false |} None;
     Sender_send DNull {| mask := Some false; binary := None; fin := Some true |} None;
     Sender_send (DString "X") {| mask := Some false; binary := None; fin := Some true |} None].
Proof. reflexivity. Qed.

Example scenario_protocol_error :
  run [Receiver_error (DString "bad frame") (DNumber 1002); Socket_end] open_server
  = (set_pendingTicks [] (set_wired true (set_close (DNumber 1002) (DString "")
       (set_readyState CLOSED (new_server DUndefined)))),
     [ToSender (Sender_close (DNumber 1002) (DString "") false); SocketEnd;
      Emit (Ev_error (Raw (DString "bad frame")) (DNumber 1002));
      Emit (Ev_close (Some (DNumber 1002, DString "")))]).
Proof. reflexivity. Qed.

(** ** close, by ready state *)

Ltac open_record w :=
  destruct w as [srv rs sock qu ccode cmsg key awaiting wir ticks ls];
  simpl in *.

(** C4.  [close(code, reason)] by ready state: a no-op in Closing; straight
    to Closed with no close frame in Connecting; the exception 'not opened'
    in Closed; in Open the state becomes Closing, code and reason are
    recorded, exactly one close frame goes to the Sender and then
    [terminate] runs, which ends the socket. *)
Theorem close_by_state (code data : JsData) (w : WebSocket) :
  let r := close code data w in
  match _readyState w with
  | CLOSING =>
      completion r = Normal tt /\ after r = w /\ effects r = []
  | CONNECTING =>
      completion r = Normal tt /\ after r = set_readyState CLOSED w /\
      effects r = []
  | CLOSED =>
      completion r = Throw not_opened /\ after r = w /\ effects r = []
  | OPEN =>
      let closing := set_close code data (set_readyState CLOSING w) in
      completion r = Normal tt /\
      _readyState (after r) = CLOSING /\
      _closeCode (after r) = code /\
      _closeMessage (after r) = data /\
      sender_calls (effects r) = [Sender_close code data (negb (_isServer w))] /\
      effects r = ToSender (Sender_close code data (negb (_isServer w)))
                    :: effects (terminate closing) /\
      effects (terminate closing) = (if _socket w then [SocketEnd] else []) /\
      after r = after (terminate closing) /\
      _socket (after r) = false
  end.
Proof.
  open_record w.
  destruct rs, sock; cbv; repeat split; reflexivity.
Qed.

Example close_open_server :
  run [Call_close (DNumber 1000) (DString "bye")] open_server
  = (set_socket false (set_close (DNumber 1000) (DString "bye")
       (set_readyState CLOSING open_server)),
     [ToSender (Sender_close (DNumber 1000) (DString "bye") false); SocketEnd]).
Proof. reflexivity. Qed.

(** ** terminate *)

(** C9, counterexample.  On an open session [terminate()] ends the socket
    and returns with ready_state still Open. *)
Lemma terminate_open_not_closed :
  _readyState open_server = OPEN /\
  completion (step Call_terminate open_server) = Normal tt /\
  effects (step Call_terminate open_server) = [SocketEnd] /\
  _readyState (after (step Call_terminate open_server)) <> CLOSED.
Proof. repeat split; discriminate. Qed.

(** C9, as the code has it.  [terminate()] returns normally in every state
    and leaves no socket attached.  With a socket attached it ends it and
    does not touch ready_state; the socket's 'end' (or 'close') listener
    then makes the state Closed.  Without a socket it turns Connecting into
    Closed and changes nothing else. *)
Theorem terminate_spec (w : WebSocket) :
  let r := terminate w in
  completion r = Normal tt /\
  _socket (after r) = false /\
  effects r = (if _socket w then [SocketEnd] else []) /\
  _readyState (after r) =
    (if _socket w then _readyState w
     else match _readyState w with CONNECTING => CLOSED | s => s end) /\
  _readyState (after (socket_on_end (after r))) = CLOSED.
Proof.
  open_record w.
  destruct sock, rs; cbv; repeat split; reflexivity.
Qed.

(** ** The automatic pong *)

(** C8, counterexample.  After [close()] the session is Closing and its
    Receiver listeners are still attached; a ping that arrives then raises
    'not opened' out of the listener: no pong, no 'ping' event. *)
Lemma ping_while_closing_no_pong :
  let w := fst (run [Call_close (DNumber 1000) (DString "")] open_server) in
  _readyState w = CLOSING /\ wired w = true /\
  completion (step (Receiver_ping (DString "p") None) w) = Throw not_opened /\
  effects (step (Receiver_ping (DString "p") None) w) = [].
Proof. repeat split. Qed.

(** C8, as the code has it.  For a ping of the Receiver that arrives while
    ready_state is Open, the Sender gets a pong with the same payload, the
    binary flag of the ping and the mask of the role, and only then is
    'ping' emitted; the queue plays no part.  In any other state the
    listener raises 'not opened' and does neither. *)
Theorem auto_pong (data : JsData) (flags : option Flags) (w : WebSocket) :
  wired w = true ->
  step (Receiver_ping data flags) w =
  if readyState_is OPEN w then
    {| completion := Normal tt; after := w;
       effects :=
         [ToSender (Sender_pong data
            {| mask := Some (negb (_isServer w));
               binary := Some (is_true (flags_binary (flags_or_empty flags)));
               fin := None |});
          Emit (Ev_ping data (flags_or_empty flags))] |}
  else {| completion := Throw not_opened; after := w; effects := [] |}.
Proof.
  intros Hwired. open_record w. subst wir.
  destruct rs; reflexivity.
Qed.

Lemma auto_pong_witness :
  wired open_server = true /\
  step (Receiver_ping (DBuffer [0xDE; 0xAD]%N) None) open_server =
  {| completion := Normal tt; after := open_server;
     effects :=
       [ToSender (Sender_pong (DBuffer [0xDE; 0xAD]%N)
          {| mask := Some false; binary := Some false; fin := None |});
        Emit (Ev_ping (DBuffer [0xDE; 0xAD]%N) {| flags_binary := None |})] |}.
Proof.
  split; [reflexivity|].
  apply (auto_pong (DBuffer [0xDE; 0xAD]%N) None open_server). reflexivity.
Defined.

(** ** send with nothing to send *)

(** C10, counterexample.  With a queue installed by a streaming send, an
    open session does not hand [send(undefined)] to the Sender: the call is
    put on the queue. *)
Lemma falsy_send_behind_queue :
  let w := fst (run [Call_send (DReadStream 0) ArgAbsent None] open_server) in
  _readyState w = OPEN /\
  _queue w = Some [] /\
  effects (step (Call_send DUndefined ArgAbsent None) w) = [] /\
  _queue (after (step (Call_send DUndefined ArgAbsent None) w))
    = Some [Deferred_send (DString "") None None].
Proof. repeat split. Qed.

(** C10, as the code has it.  In state Open [send] with a falsy [data]
    returns normally and calls no callback with an error.  Without a queue
    it makes one Sender call with the empty string as payload and
    [fin = true], and changes nothing in the session; with a queue it
    appends the send of the empty string to the queue and calls nothing. *)
Theorem send_falsy (data : JsData) (options : OptionsArg)
    (cb : option Callback) (w : WebSocket) :
  truthy data = false ->
  _readyState w = OPEN ->
  let r := send data options cb w in
  let options' := fst (shift_arguments options cb) in
  let cb' := snd (shift_arguments options cb) in
  let o := default_mask w (set_fin true (or_empty options')) in
  completion r = Normal tt /\
  fin o = Some true /\
  match _queue w with
  | None =>
      effects r = [ToSender (Sender_send (DString "") o cb')] /\ after r = w
  | Some q =>
      effects r = [] /\
      after r = set_queue (Some (q ++ [Deferred_send (DString "") options' cb'])) w
  end.
Proof.
  intros Hfalsy Hopen. open_record w. subst rs.
  unfold send, default_mask.
  destruct options as [|o|f]; simpl; rewrite Hfalsy; simpl;
    destruct qu as [q|]; simpl;
    try destruct (mask o); repeat split; reflexivity.
Qed.

Lemma send_falsy_witness :
  truthy DNull = false /\
  _readyState open_server = OPEN /\
  effects (send DNull ArgAbsent None open_server)
  = [ToSender (Sender_send (DString "")
       {| mask := Some false; binary := None; fin := Some true |} None)].
Proof.
  split; [reflexivity|]. split; [reflexivity|].
  exact (proj1 (proj2 (proj2
    (send_falsy DNull ArgAbsent None open_server eq_refl eq_refl)))).
Defined.

(** ** The mask of outbound frames *)

Lemma ping_mask (data : JsData) (options : option Options) (w : WebSocket) :
  all_masked (mask_for w options) (effects (ping data options w)).
Proof.
  open_record w.
  destruct rs, options as [[[m|] b f]|]; cbv; repeat constructor.
Qed.

Lemma pong_mask (data : JsData) (options : option Options) (w : WebSocket) :
  all_masked (mask_for w options) (effects (pong data options w)).
Proof.
  open_record w.
  destruct rs, options as [[[m|] b f]|]; cbv; repeat constructor.
Qed.

Lemma close_mask (code data : JsData) (w : WebSocket) :
  all_masked (negb (_isServer w)) (effects (close code data w)).
Proof.
  open_record w. destruct rs, sock; cbv; repeat constructor.
Qed.

Lemma send_mask (data : JsData) (options : OptionsArg) (cb : option Callback)
    (w : WebSocket) :
  all_masked (mask_for w (fst (shift_arguments options cb)))
    (effects (send data options cb w)).
Proof.
  open_record w. unfold all_masked, mask_for, send.
  destruct options as [|[[m|] b f]|g]; simpl;
    destruct rs; try (destruct cb; cbv; constructor);
    destruct (truthy data); simpl; destruct qu; try (cbv; constructor);
    destruct data; cbv; repeat constructor.
Qed.

Lemma send_listener_mask (data : JsData) (options : OptionsArg)
    (cb : option Callback) (w : WebSocket) (l : StreamListener) :
  In l (streamListeners (after (send data options cb w))) ->
  In l (streamListeners w) \/
  mask (with_options l) = Some (mask_for w (fst (shift_arguments options cb))).
Proof.
  open_record w. unfold mask_for, send.
  destruct options as [|[[m|] b f]|g]; simpl;
    destruct rs; try (destruct cb; cbv; tauto);
    destruct (truthy data); simpl; destruct qu; try (cbv; tauto);
    destruct data; try (cbv; tauto);
    cbv [bind this assign tell ret startQueue sendStream after completion
         effects set_queue set_streamListeners streamListeners _queue
         default_mask set_fin set_mask or_empty empty_options mask binary fin
         _isServer];
    intros H; apply in_app_or in H; destruct H as [H|[H|[]]];
    try (left; exact H); subst l; right; reflexivity.
Qed.

Lemma stream_listener_mask (l : StreamListener) (w : WebSocket) :
  (forall data,
     Forall (fun c => frame_mask c = mask (with_options l))
       (sender_calls (effects (stream_on_data l data w)))) /\
  Forall (fun c => frame_mask c = mask (with_options l))
    (sender_calls (effects (stream_on_end l w))).
Proof.
  open_record w. destruct l as [id o [[k]|]].
  all: destruct rs; split; intros; try destruct k; cbv; repeat constructor.
Qed.

Lemma stream_task_mask (options : OptionsArg) (cb : option Callback)
    (w : WebSocket) (t : Task) :
  In t (pendingTicks (after (stream options cb w))) ->
  In t (pendingTicks w) \/
  exists f o, t = Task_streamCallback f o /\
              mask o = Some (mask_for w (fst (shift_arguments options cb))).
Proof.
  open_record w. unfold mask_for, stream.
  destruct options as [|[[m|] b f]|g]; simpl;
    try destruct cb as [c|]; try (cbv; tauto);
    destruct rs; try (cbv; tauto); destruct qu; try (cbv; tauto);
    cbv [bind this assign tell ret startQueue nextTick after completion
         effects set_queue set_pendingTicks pendingTicks _queue
         default_mask set_fin set_mask or_empty empty_options mask binary fin
         _isServer];
    intros H; apply in_app_or in H; destruct H as [H|[H|[]]];
    try (left; exact H); subst t; right; eexists; eexists; split; reflexivity.
Qed.

(** The first Sender call of the [send] function of a stream is made with
    the mask of the options the function closes over. *)
Lemma stream_send_mask (o : Options) (f : Callback) (data final : JsData)
    (w : WebSocket) (c : SenderCall) :
  hd_error (sender_calls (effects (stream_send o f data final w))) = Some c ->
  frame_mask c = mask o.
Proof.
  assert (Hhead :
    effects (stream_send o f data final w) = [Invoke f (Some not_opened)] \/
    exists rest,
      effects (stream_send o f data final w)
      = ToSender (Sender_send data (set_fin (strictly_true final) o) None) :: rest).
  { open_record w. destruct rs; try (left; reflexivity). right.
    unfold stream_send, try_catch, bind, this, tell, readyState_is. simpl.
    destruct (negb (truthy final)); simpl; [eexists; reflexivity|].
    match goal with
    | |- context [completion ?r] => destruct (completion r)
    end; simpl; eexists; reflexivity. }
  destruct Hhead as [-> | [rest ->]]; simpl; intros H.
  - discriminate H.
  - injection H as <-. reflexivity.
Qed.

(** C3, counterexample.  A client session sends an unmasked frame when the
    caller's options say [mask: false]. *)
Lemma client_mask_overridden :
  _isServer open_client = false /\
  _readyState open_client = OPEN /\
  ~ all_masked true
      (effects (step (Call_send (DString "x")
                        (ArgObject {| mask := Some false; binary := None; fin := None |})
                        None) open_client)).
Proof.
  split; [vm_compute; reflexivity|]. split; [vm_compute; reflexivity|].
  assert (E : sender_calls
      (effects (step (Call_send (DString "x")
                        (ArgObject {| mask := Some false; binary := None; fin := None |})
                        None) open_client))
    = [Sender_send (DString "x")
         {| mask := Some false; binary := None; fin := Some true |} None])
    by (vm_compute; reflexivity).
  unfold all_masked. rewrite E. intros H. inversion H as [|c cs Hc _].
  discriminate Hc.
Qed.

(** C3, as the code has it.  The role decides the mask only where the
    options leave it undefined: ping, pong and send call the Sender with
    the caller's [options.mask] when it is defined and with
    [!this._isServer] (true for a client, false for a server) otherwise; a
    streamed send and a stream keep that mask for their frames; close
    always uses the mask of the role. *)
Theorem mask_rule (w : WebSocket) (data : JsData) (options : OptionsArg)
    (cb : option Callback) :
  let options' := fst (shift_arguments options cb) in
  all_masked (mask_for w options') (effects (ping data options' w)) /\
  all_masked (mask_for w options') (effects (pong data options' w)) /\
  all_masked (mask_for w options') (effects (send data options cb w)) /\
  (forall l, In l (streamListeners (after (send data options cb w))) ->
     In l (streamListeners w) \/
     mask (with_options l) = Some (mask_for w options')) /\
  (forall l chunk w',
     Forall (fun c => frame_mask c = mask (with_options l))
       (sender_calls (effects (stream_on_data l chunk w')) ++
        sender_calls (effects (stream_on_end l w')))) /\
  (forall t, In t (pendingTicks (after (stream options cb w))) ->
     In t (pendingTicks w) \/
     exists f o, t = Task_streamCallback f o /\
                 mask o = Some (mask_for w options')) /\
  (forall o f chunk final w' c,
     hd_error (sender_calls (effects (stream_send o f chunk final w'))) = Some c ->
     frame_mask c = mask o) /\
  (mask (or_empty options') = None ->
     mask_for w options' = negb (_isServer w)) /\
  (forall code reason,
     all_masked (negb (_isServer w)) (effects (close code reason w))).
Proof.
  cbv zeta. repeat split.
  - apply ping_mask.
  - apply pong_mask.
  - apply send_mask.
  - apply send_listener_mask.
  - intros l chunk w'. apply Forall_app.
    destruct (stream_listener_mask l w') as [Hd He]. split; [apply Hd|exact He].
  - apply stream_task_mask.
  - intros o f chunk final w' c. apply stream_send_mask.
  - unfold mask_for. intros ->. reflexivity.
  - intros. apply close_mask.
Qed.

Example mask_rule_server_default :
  sender_calls (effects (send (DString "hi") ArgAbsent None open_server))
  = [Sender_send (DString "hi")
       {| mask := Some false; binary := None; fin := Some true |} None].
Proof. reflexivity. Qed.

Example mask_rule_client_default :
  sender_calls (effects (send (DString "hi") ArgAbsent None open_client))
  = [Sender_send (DString "hi")
       {| mask := Some true; binary := None; fin := Some true |} None].
Proof. vm_compute. reflexivity. Qed.

Lemma mask_rule_witness :
  all_masked false (effects (send (DString "hi") ArgAbsent None open_server)) /\
  mask_for open_server None = negb (_isServer open_server).
Proof.
  pose proof (mask_rule open_server (DString "hi") ArgAbsent None) as H.
  cbv zeta in H.
  destruct H as [_ [_ [Hsend [_ [_ [_ [_ [Hrole _]]]]]]]].
  split; [exact Hsend | exact (Hrole eq_refl)].
Defined.

(** ** The queue gate *)

(** Replaying a plain deferred send on an open session without a queue:
    its Sender call, the session untouched. *)
Lemma run_deferred_plain (d : Deferred) (w : WebSocket) :
  _readyState w = OPEN ->
  _queue w = None ->
  plain d = true ->
  run_deferred d w
  = {| completion := Normal tt; after := w; effects := replayed w d |}.
Proof.
  intros Hopen Hq Hd. open_record w. subst rs qu.
  destruct d as [data [o|] cb|o cb]; try discriminate Hd;
    destruct data as [ | |[|]|[|z|z]| |[|c s]|bs|id];
    try discriminate Hd; reflexivity.
Qed.

Lemma for_each_plain (q : list Deferred) (w : WebSocket) :
  _readyState w = OPEN ->
  _queue w = None ->
  forallb plain q = true ->
  for_each q w
  = {| completion := Normal tt; after := w;
       effects := flat_map (replayed w) q |}.
Proof.
  intros Hopen Hq. induction q as [|d q IH]; intros Hplain.
  - reflexivity.
  - simpl in Hplain. apply andb_true_iff in Hplain as [Hd Hrest].
    change (for_each (d :: q) w)
      with (bind (run_deferred d) (fun _ => for_each q) w).
    rewrite (bind_normal _ _ _ _ _ _ (run_deferred_plain d w Hopen Hq Hd)).
    rewrite (IH Hrest). reflexivity.
Qed.

(** Replaying deferred actions on an open session that has a queue again:
    nothing goes to the Sender, every action is put on the queue, in
    order. *)
Lemma for_each_deferred_again (q q0 : list Deferred) (w : WebSocket) :
  _readyState w = OPEN ->
  for_each q (set_queue (Some q0) w)
  = {| completion := Normal tt;
       after := set_queue (Some (q0 ++ map deferred_again q)) w;
       effects := [] |}.
Proof.
  intros Hopen. revert q0. induction q as [|d q IH]; intros q0.
  - simpl. rewrite app_nil_r. reflexivity.
  - assert (Hone : run_deferred d (set_queue (Some q0) w)
      = {| completion := Normal tt;
           after := set_queue (Some (q0 ++ [deferred_again d])) w;
           effects := [] |}).
    { open_record w. subst rs.
      destruct d as [data [o|] cb|[o|] cb];
        unfold run_deferred, send, stream, deferred_again, or_empty_string;
        simpl; try destruct (truthy data); reflexivity. }
    simpl. unfold bind at 1. rewrite Hone. simpl. rewrite IH.
    rewrite <- app_assoc. reflexivity.
Qed.

(** A deferred streamed send or stream, replayed on an open session without
    a queue, takes the queue and calls nothing. *)
Lemma run_deferred_takes_queue (d : Deferred) (w : WebSocket) :
  _readyState w = OPEN ->
  _queue w = None ->
  plain d = false ->
  exists w',
    run_deferred d w
    = {| completion := Normal tt; after := set_queue (Some []) w'; effects := [] |}
    /\ _readyState w' = OPEN.
Proof.
  intros Hopen Hq Hd. exists (after (run_deferred d w)).
  open_record w. subst rs qu.
  destruct d as [data o cb|o cb].
  - destruct data; try discriminate Hd.
    destruct o as [[[m|] b f]|]; split; reflexivity.
  - destruct o as [[[m|] b f]|]; split; reflexivity.
Qed.

(** Releasing a queue whose first streaming action is [d]: the plain sends
    before it go to the Sender in order, [d] takes the queue, and what was
    queued behind [d] is queued again, in order. *)
Lemma executeQueueSends_until_stream (before rest : list Deferred)
    (d : Deferred) (w : WebSocket) :
  _readyState w = OPEN ->
  _queue w = Some (before ++ d :: rest) ->
  forallb plain before = true ->
  plain d = false ->
  completion (executeQueueSends w) = Normal tt /\
  effects (executeQueueSends w) = flat_map (replayed w) before /\
  _queue (after (executeQueueSends w)) = Some (map deferred_again rest).
Proof.
  intros Hopen Hq Hbefore Hd.
  assert (Hopen' : _readyState (set_queue None w) = OPEN)
    by (destruct w; exact Hopen).
  assert (Hq' : _queue (set_queue None w) = None) by (destruct w; reflexivity).
  assert (Hloop : forall l w0,
    _readyState w0 = OPEN -> _queue w0 = None -> forallb plain l = true ->
    completion (for_each (l ++ d :: rest) w0) = Normal tt /\
    effects (for_each (l ++ d :: rest) w0) = flat_map (replayed w0) l /\
    _queue (after (for_each (l ++ d :: rest) w0)) = Some (map deferred_again rest)).
  { intros l w0 Ho Hn. induction l as [|x l IH]; intros Hl.
    - destruct (run_deferred_takes_queue d w0 Ho Hn Hd) as [w' [Hrun Ho']].
      simpl. unfold bind. rewrite Hrun. simpl.
      rewrite (for_each_deferred_again rest [] w' Ho'). simpl.
      repeat split.
    - simpl in Hl. apply andb_true_iff in Hl as [Hx Hl].
      destruct (IH Hl) as [Hc [He Ha]].
      change (for_each ((x :: l) ++ d :: rest) w0)
        with (bind (run_deferred x) (fun _ => for_each (l ++ d :: rest)) w0).
      rewrite (bind_normal _ _ _ _ _ _ (run_deferred_plain x w0 Ho Hn Hx)).
      simpl. rewrite Hc, He, Ha. repeat split. }
  destruct (Hloop before (set_queue None w) Hopen' Hq' Hbefore) as [Hc [He Ha]].
  assert (Hrun : executeQueueSends w
    = {| completion := completion (for_each (before ++ d :: rest) (set_queue None w));
         after := after (for_each (before ++ d :: rest) (set_queue None w));
         effects := effects (for_each (before ++ d :: rest) (set_queue None w)) |}).
  { unfold executeQueueSends, bind at 1. simpl. rewrite Hq.
    unfold bind, assign. simpl.
    destruct (completion (for_each (before ++ d :: rest) (set_queue None w)));
      reflexivity. }
  rewrite Hrun. simpl. rewrite Hc, He, Ha. repeat split.
Qed.

(** C1, counterexample.  A ping issued while a streamed send holds the
    queue goes to the Sender at once: it reaches the Sender before the
    stream's chunk and before its final [fin = true] frame, and it is never
    put on the queue. *)
Lemma ping_overtakes_stream :
  let w := fst (run [Call_send (DReadStream 0) ArgAbsent None] open_server) in
  _queue w = Some [] /\
  effects (step (Call_ping (DString "p") None) w)
    = [ToSender (Sender_ping (DString "p")
         {| mask := Some false; binary := None; fin := None |})] /\
  _queue (after (step (Call_ping (DString "p") None) w)) = Some [] /\
  sender_calls (snd (run
    [Call_send (DReadStream 0) ArgAbsent None;
     Call_ping (DString "p") None;
     Stream_data 0 (DString "hel");
     Stream_end 0; Tick] open_server))
  = [Sender_ping (DString "p") {| mask := Some false; binary := None; fin := None |};
     Sender_send (DString "hel") {| mask := Some false; binary := None; fin := Some false |} None;
     Sender_send DNull {| mask := Some false; binary := None; fin := Some true |} None].
Proof. repeat split. Qed.

(** C1, as the code has it.  On an open session whose queue is present,
    send and stream make no Sender call and append themselves to the end of
    the queue; ping and pong do not look at the queue and call the Sender
    at once.  Releasing the queue removes it and replays the entries in
    insertion order, each once: plain sends become one Sender call each;
    the first entry that streams takes the queue again, and the entries
    behind it are put on that queue, in the same order. *)
Theorem queue_gate (w : WebSocket) (q : list Deferred) :
  _readyState w = OPEN ->
  _queue w = Some q ->
  (forall data options cb,
     send data options cb w
     = {| completion := Normal tt;
          after := set_queue
            (Some (q ++ [Deferred_send (or_empty_string data)
                           (fst (shift_arguments options cb))
                           (snd (shift_arguments options cb))])) w;
          effects := [] |}) /\
  (forall options cb f,
     snd (shift_arguments options cb) = Some f ->
     stream options cb w
     = {| completion := Normal tt;
          after := set_queue
            (Some (q ++ [Deferred_stream (fst (shift_arguments options cb)) f])) w;
          effects := [] |}) /\
  (forall data options,
     ping data options w
     = {| completion := Normal tt; after := w;
          effects := [ToSender (Sender_ping data
                        (default_mask w (or_empty options)))] |}) /\
  (forall data options,
     pong data options w
     = {| completion := Normal tt; after := w;
          effects := [ToSender (Sender_pong data
                        (default_mask w (or_empty options)))] |}) /\
  (forallb plain q = true ->
     executeQueueSends w
     = {| completion := Normal tt; after := set_queue None w;
          effects := flat_map (replayed w) q |}) /\
  (forall before d rest,
     q = before ++ d :: rest ->
     forallb plain before = true ->
     plain d = false ->
     completion (executeQueueSends w) = Normal tt /\
     effects (executeQueueSends w) = flat_map (replayed w) before /\
     _queue (after (executeQueueSends w)) = Some (map deferred_again rest)).
Proof.
  intros Hopen Hq.
  split; [|split; [|split; [|split; [|split]]]];
    [| | | | |intros before d rest -> Hbefore Hd;
              exact (executeQueueSends_until_stream before rest d w
                       Hopen Hq Hbefore Hd)].
  - intros data options cb. open_record w. subst rs qu.
    unfold send, or_empty_string.
    destruct options; simpl; destruct (truthy data); reflexivity.
  - intros options cb f Hf. open_record w. subst rs qu.
    unfold stream.
    destruct options; simpl in *; try injection Hf as Hf; subst; reflexivity.
  - intros data options. open_record w. subst rs qu. reflexivity.
  - intros data options. open_record w. subst rs qu. reflexivity.
  - intros Hplain. unfold executeQueueSends, bind at 1. simpl. rewrite Hq.
    unfold bind, assign. simpl.
    rewrite (for_each_plain q (set_queue None w)); try assumption;
      reflexivity.
Qed.

Lemma queue_gate_witness :
  let w := fst (run [Call_stream ArgAbsent (Some 7);
                     Call_send (DString "A") ArgAbsent None;
                     Call_send DNull ArgAbsent (Some 3)] open_server) in
  let q := [Deferred_send (DString "A") None None;
            Deferred_send (DString "") None (Some 3)] in
  let w' := fst (run [Call_stream ArgAbsent (Some 7);
                      Call_send (DString "A") ArgAbsent None;
                      Call_stream ArgAbsent (Some 9);
                      Call_send (DString "B") ArgAbsent None] open_server) in
  (_readyState w = OPEN /\
   _queue w = Some q /\
   forallb plain q = true /\
   executeQueueSends w
   = {| completion := Normal tt; after := set_queue None w;
        effects :=
          [ToSender (Sender_send (DString "A")
             {| mask := Some false; binary := None; fin := Some true |} None);
           ToSender (Sender_send (DString "")
             {| mask := Some false; binary := None; fin := Some true |} (Some 3))] |}) /\
  (_readyState w' = OPEN /\
   _queue w' = Some ([Deferred_send (DString "A") None None]
                     ++ Deferred_stream None 9
                     :: [Deferred_send (DString "B") None None]) /\
   effects (executeQueueSends w')
   = [ToSender (Sender_send (DString "A")
        {| mask := Some false; binary := None; fin := Some true |} None)] /\
   _queue (after (executeQueueSends w'))
   = Some [Deferred_send (DString "B") None None]).
Proof.
  cbv zeta. split.
  - split; [reflexivity|]. split; [reflexivity|]. split; [reflexivity|].
    exact (proj1 (proj2 (proj2 (proj2 (proj2
      (queue_gate
         (fst (run [Call_stream ArgAbsent (Some 7);
                    Call_send (DString "A") ArgAbsent None;
                    Call_send DNull ArgAbsent (Some 3)] open_server))
         [Deferred_send (DString "A") None None;
          Deferred_send (DString "") None (Some 3)]
         eq_refl eq_refl))))) eq_refl).
  - split; [reflexivity|]. split; [reflexivity|].
    exact (proj2 (proj2 (proj2 (proj2 (proj2 (proj2
      (queue_gate
         (fst (run [Call_stream ArgAbsent (Some 7);
                    Call_send (DString "A") ArgAbsent None;
                    Call_stream ArgAbsent (Some 9);
                    Call_send (DString "B") ArgAbsent None] open_server))
         ([Deferred_send (DString "A") None None]
          ++ Deferred_stream None 9 :: [Deferred_send (DString "B") None None])
         eq_refl eq_refl)))))
      [Deferred_send (DString "A") None None] (Deferred_stream None 9)
      [Deferred_send (DString "B") None None] eq_refl eq_refl eq_refl)).
Defined.

(** ** A streamed send on a session that is no longer open *)

(** Off the Open state, send and stream leave the session as it is. *)
Lemma run_deferred_not_open (d : Deferred) (w : WebSocket) :
  _readyState w <> OPEN -> after (run_deferred d w) = w.
Proof.
  intros Hrs. open_record w.
  destruct d as [data [o|] [f|]|[o|] f], rs;
    try reflexivity; now elim Hrs.
Qed.

Lemma for_each_not_open (q : list Deferred) (w : WebSocket) :
  _readyState w <> OPEN -> after (for_each q w) = w.
Proof.
  intros Hrs. induction q as [|d q IH]; [reflexivity|].
  simpl. unfold bind.
  pose proof (run_deferred_not_open d w Hrs) as Hd.
  destruct (completion (run_deferred d w)); simpl; rewrite Hd; auto.
Qed.

Lemma executeQueueSends_not_open (w : WebSocket) :
  _readyState w <> OPEN -> after (executeQueueSends w) = set_queue None w.
Proof.
  intros Hrs. unfold executeQueueSends, bind at 1. simpl.
  destruct (_queue w) as [q|] eqn:Hq.
  - unfold bind, assign. simpl.
    apply (for_each_not_open q (set_queue None w)).
    destruct w; exact Hrs.
  - destruct w; simpl in *; subst; reflexivity.
Qed.

(** What [send] does with a ReadStream on an open session without a queue:
    it installs the empty queue and puts one listener on the stream, whose
    callback is the function of lines 281-284. *)
Lemma send_ReadStream (id : nat) (options : OptionsArg) (cb : option Callback)
    (w : WebSocket) :
  _readyState w = OPEN ->
  _queue w = None ->
  send (DReadStream id) options cb w
  = {| completion := Normal tt;
       after :=
         set_streamListeners
           (streamListeners w ++
              [{| on_stream := id;
                  with_options :=
                    default_mask w
                      (set_fin true (or_empty (fst (shift_arguments options cb))));
                  with_cb := Some (AfterSend (snd (shift_arguments options cb))) |}])
           (set_queue (Some []) w);
       effects := [] |}.
Proof.
  intros Hrs Hq. open_record w. subst rs qu.
  destruct options as [|[[m|] b f]|g]; reflexivity.
Qed.

(** C5, counterexample.  A streamed send with callback 1 holds the queue, a
    send with callback 2 is deferred behind it, and the session is closed.
    The next chunk fails callback 1 and schedules [executeQueueSends]; on
    the next turn of the loop the queue is removed and the deferred send is
    replayed (and fails in its turn): the queue is released. *)
Lemma stream_failure_releases_queue :
  let w := fst (run [Call_send (DReadStream 0) ArgAbsent (Some 1);
                     Call_send (DString "X") ArgAbsent (Some 2);
                     Call_close (DNumber 1000) (DString "")] open_server) in
  _readyState w = CLOSING /\
  _queue w = Some [Deferred_send (DString "X") None (Some 2)] /\
  effects (step (Stream_data 0 (DString "hel")) w) = [Invoke 1 (Some not_opened)] /\
  pendingTicks (after (step (Stream_data 0 (DString "hel")) w))
    = [Task_executeQueueSends] /\
  _queue (fst (run [Stream_data 0 (DString "hel"); Tick] w)) = None /\
  snd (run [Stream_data 0 (DString "hel"); Tick] w)
    = [Invoke 1 (Some not_opened); Invoke 2 (Some not_opened)].
Proof. repeat split. Qed.

(** C5, as the code has it.  When ready_state is not Open at a chunk or at
    the end of the source, the listener of a streamed send leaves the queue
    as it is and schedules its release for the next turn of the loop.  When
    the send was given a callback, the listener calls it with 'not opened'
    and does nothing else: no 'error' event is emitted.  The scheduled
    release, run on a session that is still not Open, removes the queue. *)
Theorem stream_not_open (l : StreamListener) (cb : option Callback)
    (w : WebSocket) :
  _readyState w <> OPEN ->
  with_cb l = Some (AfterSend cb) ->
  let scheduled :=
    set_pendingTicks (pendingTicks w ++ [Task_executeQueueSends]) w in
  let failed f :=
    {| completion := Normal tt;
       after := scheduled;
       effects := [Invoke f (Some not_opened)] |} in
  (forall data, after (stream_on_data l data w) = scheduled) /\
  after (stream_on_end l w) = scheduled /\
  _queue scheduled = _queue w /\
  (forall f, cb = Some f ->
     (forall data, stream_on_data l data w = failed f) /\
     stream_on_end l w = failed f /\
     events (effects (failed f)) = []) /\
  (forall w', _readyState w' <> OPEN ->
     _queue (after (run_task Task_executeQueueSends w')) = None).
Proof.
  intros Hrs Hcb. cbv zeta.
  split; [|split; [|split; [|split]]].
  - intros data. open_record w. destruct l as [id o k]. simpl in Hcb. subst k.
    destruct rs, cb; try reflexivity; now elim Hrs.
  - open_record w. destruct l as [id o k]. simpl in Hcb. subst k.
    destruct rs, cb; try reflexivity; now elim Hrs.
  - destruct w; reflexivity.
  - intros f ->. split; [|split].
    + intros data. open_record w. destruct l as [id o k]. simpl in Hcb. subst k.
      destruct rs; try reflexivity; now elim Hrs.
    + open_record w. destruct l as [id o k]. simpl in Hcb. subst k.
      destruct rs; try reflexivity; now elim Hrs.
    + reflexivity.
  - intros w' Hrs'.
    change (_queue (after (executeQueueSends w')) = None).
    rewrite (executeQueueSends_not_open _ Hrs'). destruct w'; reflexivity.
Qed.

Lemma stream_not_open_witness :
  let w := fst (run [Call_send (DReadStream 0) ArgAbsent (Some 1);
                     Call_close (DNumber 1000) (DString "")] open_server) in
  let l := {| on_stream := 0;
              with_options := {| mask := Some false; binary := None; fin := Some true |};
              with_cb := Some (AfterSend (Some 1)) |} in
  _readyState w <> OPEN /\
  streamListeners w = [l] /\
  stream_on_end l w
  = {| completion := Normal tt;
       after := set_pendingTicks [Task_executeQueueSends] w;
       effects := [Invoke 1 (Some not_opened)] |}.
Proof.
  cbv zeta. split; [discriminate|]. split; [reflexivity|].
  exact (proj1 (proj2 (proj1 (proj2 (proj2 (proj2
    (stream_not_open
       {| on_stream := 0;
          with_options := {| mask := Some false; binary := None; fin := Some true |};
          with_cb := Some (AfterSend (Some 1)) |}
       (Some 1)
       (fst (run [Call_send (DReadStream 0) ArgAbsent (Some 1);
                  Call_close (DNumber 1000) (DString "")] open_server))
       ltac:(discriminate) eq_refl)))) 1 eq_refl))).
Defined.

(** ** The client handshake *)

Example scenario_bad_key :
  match new_client (Some "example"%string) 13 1700000000000 with
  | Normal w =>
      run [Request_upgrade (Some "xxx"%string) DUndefined] w
      = (set_awaitingUpgrade false w,
         [Emit (Ev_error invalid_server_key DUndefined); SocketEnd])
  | Throw _ => False
  end.
Proof. vm_compute. reflexivity. Qed.

Example scenario_close_from_connecting :
  match new_client (Some "example"%string) 13 1700000000000 with
  | Normal w =>
      snd (run [Call_close DUndefined DUndefined;
                Request_upgrade (Some (expectedServerKey w)) DUndefined] w)
      = [Emit (Ev_close None); SocketEnd]
  | Throw _ => False
  end.
Proof. vm_compute. reflexivity. Qed.

(** The listener that [step] runs is the one of a session whose
    application listens to 'error'. *)
Lemma emit_with_listener (e : Event) (w : WebSocket) :
  emit_with true e w = emit e w.
Proof. destruct e; reflexivity. Qed.





Example expected_accept_value :
  expected_accept (session_key 13 1700000000000) <> "xxx"%string /\
  session_key 13 1700000000000 = "MTMtMTcwMDAwMDAwMDAwMA=="%string.
Proof. vm_compute. split; [discriminate|reflexivity]. Qed.

(** ** Reasoning about sequences of statements *)

Section Stable.

Context {R : WebSocket -> WebSocket -> Prop}.
Hypothesis R_refl : forall w, R w w.
Hypothesis R_trans : forall a b c, R a b -> R b c -> R a c.

Lemma stable_ret {A} (a : A) : stable R (ret a).
Proof. intros w. apply R_refl. Qed.

Lemma stable_this : stable R this.
Proof. intros w. apply R_refl. Qed.

Lemma stable_tell (e : Effect) : stable R (tell e).
Proof. intros w. apply R_refl. Qed.

Lemma stable_throw {A} (e : JsError) : stable R (@throw A e).
Proof. intros w. apply R_refl. Qed.

Lemma stable_assign (f : WebSocket -> WebSocket) :
  (forall w, R w (f w)) -> stable R (assign f).
Proof. intros Hf w. apply Hf. Qed.

Lemma stable_bind {A B} (m : M A) (k : A -> M B) :
  stable R m -> (forall a, stable R (k a)) -> stable R (bind m k).
Proof.
  intros Hm Hk w. unfold bind. specialize (Hm w).
  destruct (completion (m w)) as [a|e]; simpl; [|exact Hm].
  eapply R_trans; [exact Hm|apply Hk].
Qed.

Lemma stable_try_catch (body : M unit) (handler : JsError -> M unit) :
  stable R body -> (forall e, stable R (handler e)) ->
  stable R (try_catch body handler).
Proof.
  intros Hb Hh w. unfold try_catch. specialize (Hb w).
  destruct (completion (body w)) as [a|e]; simpl; [exact Hb|].
  eapply R_trans; [exact Hb|apply Hh].
Qed.

Lemma stable_dispatch (ls : list StreamListener) (id : nat)
    (listener : StreamListener -> M unit) :
  (forall l, stable R (listener l)) -> stable R (dispatch ls id listener).
Proof.
  intros Hl. induction ls as [|l ls IH]; simpl.
  - apply stable_ret.
  - apply stable_bind; [|intros _; exact IH].
    destruct (Nat.eqb (on_stream l) id); [apply Hl|apply stable_ret].
Qed.

(** The loop of [executeQueueSends], given its body. *)
Lemma stable_for_each (q : list Deferred) :
  (forall d, stable R (run_deferred d)) -> stable R (for_each q).
Proof.
  intros Hd. induction q as [|d q IH]; simpl.
  - apply stable_ret.
  - apply stable_bind; [apply Hd|intros _; exact IH].
Qed.

End Stable.

Lemma raises_error_app (a b : list Effect) :
  raises_error (a ++ b) = raises_error a || raises_error b.
Proof. apply existsb_app. Qed.

Lemma silent_bind {A B} (m : M A) (k : A -> M B) :
  silent m -> (forall a, silent (k a)) -> silent (bind m k).
Proof.
  intros Hm Hk w. unfold bind. specialize (Hm w).
  destruct (completion (m w)) as [a|e]; simpl; [|exact Hm].
  rewrite raises_error_app, Hm, (Hk a). reflexivity.
Qed.

Lemma silent_try_catch (body : M unit) (handler : JsError -> M unit) :
  silent body -> (forall e, silent (handler e)) -> silent (try_catch body handler).
Proof.
  intros Hb Hh w. unfold try_catch. specialize (Hb w).
  destruct (completion (body w)) as [a|e]; simpl; [exact Hb|].
  rewrite raises_error_app, Hb, (Hh e). reflexivity.
Qed.

Lemma silent_send (data : JsData) (options : OptionsArg) (cb : option Callback) :
  silent (send data options cb).
Proof.
  intros w. open_record w. unfold send.
  destruct options as [|o|g]; simpl;
    destruct rs; try (destruct cb; reflexivity);
    destruct (truthy data); simpl; destruct qu; try reflexivity;
    destruct data; reflexivity.
Qed.

Lemma silent_stream (options : OptionsArg) (cb : option Callback) :
  silent (stream options cb).
Proof.
  intros w. open_record w. unfold stream.
  destruct options as [|o|g]; simpl;
    try destruct cb; try reflexivity; destruct rs, qu; reflexivity.
Qed.

Lemma silent_run_deferred (d : Deferred) : silent (run_deferred d).
Proof. destruct d; [apply silent_send|apply silent_stream]. Qed.

Lemma silent_for_each (q : list Deferred) : silent (for_each q).
Proof.
  induction q as [|d q IH]; simpl.
  - intros w. reflexivity.
  - apply silent_bind; [apply silent_run_deferred|intros _; exact IH].
Qed.

Lemma silent_executeQueueSends : silent executeQueueSends.
Proof.
  unfold executeQueueSends. apply silent_bind; [intros w; reflexivity|].
  intros w0. destruct (_queue w0) as [q|]; [|intros w; reflexivity].
  apply silent_bind; [intros w; reflexivity|intros _; apply silent_for_each].
Qed.

Lemma silent_stream_send (options : Options) (cb : Callback)
    (data final : JsData) :
  silent (stream_send options cb data final).
Proof.
  unfold stream_send. apply silent_try_catch; [|intros e w; reflexivity].
  apply silent_bind; [intros w; reflexivity|]. intros w0.
  destruct (negb (readyState_is OPEN w0)); [intros w; reflexivity|].
  apply silent_bind; [intros w; reflexivity|]. intros _.
  destruct (negb (truthy final));
    [intros w; reflexivity|apply silent_executeQueueSends].
Qed.

(** ** ready_state along a run *)

Lemma same_readyState_refl (w : WebSocket) : same_readyState w w.
Proof. reflexivity. Qed.

Lemma same_readyState_trans (a b c : WebSocket) :
  same_readyState a b -> same_readyState b c -> same_readyState a c.
Proof. unfold same_readyState. congruence. Qed.

Lemma send_readyState (data : JsData) (options : OptionsArg)
    (cb : option Callback) :
  stable same_readyState (send data options cb).
Proof.
  intros w. open_record w. unfold send, same_readyState.
  destruct options as [|o|g]; simpl;
    destruct rs; try (destruct cb; reflexivity);
    destruct (truthy data); simpl; destruct qu; try reflexivity;
    destruct data; reflexivity.
Qed.

Lemma stream_readyState (options : OptionsArg) (cb : option Callback) :
  stable same_readyState (stream options cb).
Proof.
  intros w. open_record w. unfold stream, same_readyState.
  destruct options as [|o|g]; simpl;
    try destruct cb; try reflexivity; destruct rs, qu; reflexivity.
Qed.

Lemma run_deferred_readyState (d : Deferred) :
  stable same_readyState (run_deferred d).
Proof. destruct d; [apply send_readyState|apply stream_readyState]. Qed.

Lemma executeQueueSends_readyState : stable same_readyState executeQueueSends.
Proof.
  unfold executeQueueSends.
  apply (stable_bind same_readyState_trans);
    [apply (stable_this same_readyState_refl)|].
  intros w0. destruct (_queue w0) as [q|].
  - apply (stable_bind same_readyState_trans).
    + apply stable_assign. intros w. destruct w; reflexivity.
    + intros _. apply (stable_for_each same_readyState_refl same_readyState_trans).
      apply run_deferred_readyState.
  - apply (stable_ret same_readyState_refl).
Qed.

Lemma stream_send_readyState (options : Options) (cb : Callback)
    (data final : JsData) :
  stable same_readyState (stream_send options cb data final).
Proof.
  unfold stream_send.
  apply (stable_try_catch same_readyState_trans);
    [|intros e w; reflexivity].
  apply (stable_bind same_readyState_trans); [intros w; reflexivity|].
  intros w0. destruct (negb (readyState_is OPEN w0)); [intros w; reflexivity|].
  apply (stable_bind same_readyState_trans); [intros w; reflexivity|].
  intros _. destruct (negb (truthy final)).
  - intros w. destruct w; reflexivity.
  - apply executeQueueSends_readyState.
Qed.

Lemma stream_on_data_readyState (data : JsData) (l : StreamListener) :
  stable same_readyState (stream_on_data l data).
Proof.
  intros w. open_record w. destruct l as [id o [[[f|]]|]], rs; reflexivity.
Qed.

Lemma stream_on_end_readyState (l : StreamListener) :
  stable same_readyState (stream_on_end l).
Proof.
  intros w. open_record w. destruct l as [id o [[[f|]]|]], rs; reflexivity.
Qed.

Lemma step_listeners (i : Input) (w : WebSocket) :
  completion (step i w) = completion (listeners i w w) /\
  after (step i w) = after (listeners i w w) /\
  effects (step i w) = effects (listeners i w w).
Proof.
  unfold step, bind, this. simpl.
  destruct (completion (listeners i w w)); repeat split.
Qed.

Example trajectory_server :
  map (fun inputs => _readyState (fst (run inputs (new_server DUndefined))))
    [[]; [Tick]; [Tick; Call_close DUndefined DUndefined];
     [Tick; Call_close DUndefined DUndefined; Socket_end]]
  = [CONNECTING; OPEN; CLOSING; CLOSED].
Proof. reflexivity. Qed.

(** A session made for a server and closed before the turn of the loop
    that runs [upgrade]: the client's listener tests for Closed (line 136),
    the scheduled call (lines 60-62) does not, and the session opens. *)
Example late_upgrade_reopens :
  map (fun inputs => _readyState (fst (run inputs (new_server DUndefined))))
    [[]; [Call_close DUndefined DUndefined];
     [Call_close DUndefined DUndefined; Tick]]
  = [CONNECTING; CLOSED; OPEN].
Proof. reflexivity. Qed.

(** C2, counterexample.  The peer ends the transport of an open session:
    the socket's 'end' listener takes ready_state from Open to Closed in
    one move, which is on neither of the two paths. *)
Lemma open_to_closed_directly :
  _readyState open_server = OPEN /\
  _readyState (after (step Socket_end open_server)) = CLOSED /\
  claimed_move (_readyState open_server)
    (_readyState (after (step Socket_end open_server))) = false.
Proof. repeat split. Qed.

(** On every entry into the session, except one that runs [upgrade] on a
    session that has left Connecting, ready_state either stays or makes one
    of the moves Connecting -> Open, Connecting -> Closed, Open -> Closing,
    Open -> Closed and Closing -> Closed. *)
Lemma step_readyState (i : Input) (w : WebSocket) :
  (runs_upgrade i w = true -> _readyState w = CONNECTING) ->
  _readyState (after (step i w)) = _readyState w \/
  designed_move (_readyState w) (_readyState (after (step i w))) = true.
Proof.
  intros Hup. destruct (step_listeners i w) as [_ [-> _]].
  destruct i; unfold listeners.
  - (* close *) open_record w. destruct rs, sock; cbv; auto.
  - (* ping *) left. open_record w. destruct rs; reflexivity.
  - (* pong *) left. open_record w. destruct rs; reflexivity.
  - left. apply send_readyState.
  - left. apply stream_readyState.
  - (* terminate *) open_record w. destruct rs, sock; cbv; auto.
  - left. apply stream_send_readyState.
  - (* a turn of the loop *)
    destruct (pendingTicks w) as [|[head| |cb o] rest] eqn:Hticks.
    + left. reflexivity.
    + unfold runs_upgrade in Hup. rewrite Hticks in Hup.
      specialize (Hup eq_refl). right. rewrite Hup.
      open_record w. destruct (non_empty head); reflexivity.
    + left.
      apply (stable_bind same_readyState_trans
               (assign (set_pendingTicks rest))
               (fun _ => run_task Task_executeQueueSends)).
      * apply stable_assign. intros w'. destruct w'; reflexivity.
      * intros _. apply executeQueueSends_readyState.
    + left. open_record w. reflexivity.
  - (* the request fails *) left. open_record w. destruct srv; reflexivity.
  - (* the upgrade response *)
    unfold runs_upgrade in Hup. open_record w.
    destruct srv, awaiting; try (left; reflexivity).
    unfold request_on_upgrade.
    destruct serverKey as [k|].
    + destruct (String.eqb k key) eqn:Hk.
      * destruct rs; simpl in Hup;
          try (specialize (Hup eq_refl); discriminate Hup).
        -- right. unfold bind, assign, this, readyState_is. simpl.
           rewrite Hk. simpl. destruct (non_empty upgradeHead); reflexivity.
        -- left. reflexivity.
      * left. destruct rs; unfold bind, assign, this, readyState_is; simpl;
          try rewrite Hk; reflexivity.
    + left. destruct rs; reflexivity.
  - (* the socket ends *) open_record w. destruct wir, rs; cbv; auto.
  - (* the socket closes *) open_record w. destruct wir, rs; cbv; auto.
  - left. open_record w. destruct wir; reflexivity.
  - left. open_record w. destruct wir; reflexivity.
  - (* a ping arrives *) left. open_record w. destruct wir, rs; reflexivity.
  - left. reflexivity.
  - (* a close frame arrives *) open_record w. destruct wir, rs, sock; cbv; auto.
  - (* the Receiver fails *)
    open_record w. destruct wir, (defined errorCode) eqn:Hd, rs, sock;
      unfold receiver_on_error; rewrite ?Hd; cbv; auto.
  - left. open_record w. destruct wir; reflexivity.
  - left. apply (stable_dispatch same_readyState_refl same_readyState_trans).
    intros l. apply stream_on_data_readyState.
  - left. apply (stable_dispatch same_readyState_refl same_readyState_trans).
    intros l. apply stream_on_end_readyState.
Qed.

(** ** The queue when 'error' is emitted *)

Lemma queue_stays_absent_refl (w : WebSocket) : queue_stays_absent w w.
Proof. intros H. exact H. Qed.

Lemma queue_stays_absent_trans (a b c : WebSocket) :
  queue_stays_absent a b -> queue_stays_absent b c -> queue_stays_absent a c.
Proof. unfold queue_stays_absent. auto. Qed.

Lemma silent_error_clears_queue {A} (m : M A) :
  silent m -> error_clears_queue m.
Proof. intros Hs w Hr. rewrite (Hs w) in Hr. discriminate Hr. Qed.

Lemma error_clears_queue_bind {A B} (m : M A) (k : A -> M B) :
  error_clears_queue m ->
  (forall a, stable queue_stays_absent (k a)) ->
  (forall a, error_clears_queue (k a)) ->
  error_clears_queue (bind m k).
Proof.
  intros Hm Hstable Hk w. unfold bind. specialize (Hm w).
  destruct (completion (m w)) as [a|e]; simpl; [|exact Hm].
  rewrite raises_error_app. intros Hr.
  destruct (raises_error (effects (k a (after (m w))))) eqn:Hlater.
  - apply Hk. exact Hlater.
  - rewrite orb_false_r in Hr. apply Hstable. apply Hm. exact Hr.
Qed.

Lemma error_clears_queue_dispatch (ls : list StreamListener) (id : nat)
    (listener : StreamListener -> M unit) :
  (forall l, stable queue_stays_absent (listener l)) ->
  (forall l, error_clears_queue (listener l)) ->
  error_clears_queue (dispatch ls id listener).
Proof.
  intros Hstable Hclears. induction ls as [|l ls IH]; simpl.
  - intros w Hr. discriminate Hr.
  - apply error_clears_queue_bind.
    + destruct (Nat.eqb (on_stream l) id); [apply Hclears|].
      intros w Hr. discriminate Hr.
    + intros _.
      apply (stable_dispatch queue_stays_absent_refl queue_stays_absent_trans).
      exact Hstable.
    + intros _. exact IH.
Qed.

Lemma stream_on_data_queue (data : JsData) (l : StreamListener) :
  stable queue_stays_absent (stream_on_data l data) /\
  error_clears_queue (stream_on_data l data).
Proof.
  split; intros w; open_record w;
    destruct l as [id o [[[f|]]|]], rs; cbv; intros H;
    first [exact H | reflexivity | discriminate H].
Qed.

Lemma stream_on_end_queue (l : StreamListener) :
  stable queue_stays_absent (stream_on_end l) /\
  error_clears_queue (stream_on_end l).
Proof.
  split; intros w; open_record w;
    destruct l as [id o [[[f|]]|]], rs; cbv; intros H;
    first [exact H | reflexivity | discriminate H].
Qed.

Lemma listeners_error_clears_queue (i : Input) (w : WebSocket) :
  raises_error (effects (listeners i w w)) = true ->
  _queue (after (listeners i w w)) = None.
Proof.
  destruct i; unfold listeners.
  - open_record w. destruct rs, sock; cbv; intros H; discriminate H.
  - open_record w. destruct rs; cbv; intros H; discriminate H.
  - open_record w. destruct rs; cbv; intros H; discriminate H.
  - apply silent_error_clears_queue. apply silent_send.
  - apply silent_error_clears_queue. apply silent_stream.
  - open_record w. destruct rs, sock; cbv; intros H; discriminate H.
  - apply silent_error_clears_queue. apply silent_stream_send.
  - destruct (pendingTicks w) as [|[head| |cb o] rest].
    + intros H. discriminate H.
    + open_record w. destruct (non_empty head); cbv; intros H; discriminate H.
    + apply silent_error_clears_queue.
      apply silent_bind; [intros w'; reflexivity|].
      intros _. apply silent_executeQueueSends.
    + intros H. discriminate H.
  - open_record w. destruct srv; intros H; [discriminate H|reflexivity].
  - open_record w. destruct srv, awaiting; try (intros H; discriminate H).
    unfold request_on_upgrade.
    destruct serverKey as [k|].
    + destruct rs; unfold bind, assign, this, readyState_is; simpl;
        try (intros H; discriminate H);
        destruct (String.eqb k key); simpl;
        try (intros H; reflexivity);
        destruct (non_empty upgradeHead); intros H; discriminate H.
    + destruct rs; intros H; first [discriminate H | reflexivity].
  - open_record w. destruct wir, rs; intros H; discriminate H.
  - open_record w. destruct wir, rs; intros H; discriminate H.
  - open_record w. destruct wir; intros H; discriminate H.
  - open_record w. destruct wir; intros H; discriminate H.
  - open_record w. destruct wir, rs; intros H; discriminate H.
  - intros H. discriminate H.
  - open_record w. destruct wir, rs, sock; intros H; discriminate H.
  - open_record w. unfold receiver_on_error.
    destruct wir, (defined errorCode), rs, sock; intros H;
      first [discriminate H | reflexivity].
  - open_record w. destruct wir; intros H; first [discriminate H | reflexivity].
  - apply error_clears_queue_dispatch; intros l; apply stream_on_data_queue.
  - apply error_clears_queue_dispatch; intros l; apply stream_on_end_queue.
Qed.

Example scenario_error_drops_queue :
  let w := fst (run [Call_send (DReadStream 0) ArgAbsent None;
                     Call_send (DString "X") ArgAbsent (Some 2)] open_server) in
  _queue w = Some [Deferred_send (DString "X") None (Some 2)] /\
  run [Sender_error (Error "EPIPE"); Stream_end 0; Tick] w
  = (set_queue None w,
     [Emit (Ev_error (Error "EPIPE") DUndefined);
      ToSender (Sender_send DNull
        {| mask := Some false; binary := None; fin := Some true |} None)]).
Proof. repeat split. Qed.

(** C7.  An entry into the session that emits 'error' leaves the session
    without a queue.  Emitting 'error' ends in the same session whatever
    the queue held, so nothing of what was deferred can still have an
    effect; and [executeQueueSends], when it runs afterwards, finds no
    queue and replays nothing. *)
Theorem error_discards_queue (i : Input) (w : WebSocket) :
  (raises_error (effects (step i w)) = true ->
   _queue (after (step i w)) = None) /\
  (forall reason errorCode q,
     emit (Ev_error reason errorCode) (set_queue q w)
     = {| completion := Normal tt; after := set_queue None w;
          effects := [Emit (Ev_error reason errorCode)] |}) /\
  (forall reason errorCode,
     executeQueueSends (after (emit (Ev_error reason errorCode) w))
     = {| completion := Normal tt; after := set_queue None w; effects := [] |}).
Proof.
  split; [|split].
  - destruct (step_listeners i w) as [_ [-> ->]].
    apply listeners_error_clears_queue.
  - intros reason errorCode q. destruct w; reflexivity.
  - intros reason errorCode. destruct w; reflexivity.
Qed.

Lemma error_discards_queue_witness :
  let w := fst (run [Call_send (DReadStream 0) ArgAbsent None;
                     Call_send (DString "X") ArgAbsent (Some 2)] open_server) in
  _queue w = Some [Deferred_send (DString "X") None (Some 2)] /\
  raises_error (effects (step (Sender_error (Error "EPIPE")) w)) = true /\
  _queue (after (step (Sender_error (Error "EPIPE")) w)) = None.
Proof.
  cbv zeta. split; [reflexivity|]. split; [reflexivity|].
  exact (proj1 (error_discards_queue (Sender_error (Error "EPIPE"))
    (fst (run [Call_send (DReadStream 0) ArgAbsent None;
               Call_send (DString "X") ArgAbsent (Some 2)] open_server)))
    eq_refl).
Defined.

(** ** When [upgrade] can still run *)

Lemma keeps_upgrade_order_refl (w : WebSocket) : keeps_upgrade_order w w.
Proof. split; auto. Qed.

Lemma keeps_upgrade_order_trans (a b c : WebSocket) :
  keeps_upgrade_order a b -> keeps_upgrade_order b c -> keeps_upgrade_order a c.
Proof.
  intros [Tab Aab] [Tbc Abc]. split; [auto|].
  intros Hc. destruct (Abc Hc) as [Hb Hbc]. destruct (Aab Hb) as [Ha Hab].
  auto.
Qed.

Lemma keeps_intro (a b : WebSocket) (ts : list Task) :
  pendingTicks b = pendingTicks a ++ ts ->
  forallb (fun t => negb (is_upgrade t)) ts = true ->
  (awaitingUpgrade b = true -> awaitingUpgrade a = true) ->
  (before_upgrade a -> before_upgrade b) ->
  keeps_upgrade_order a b.
Proof.
  intros Hticks Hts Haw Hrs. split.
  - unfold no_upgrade_pending. rewrite Hticks, forallb_app, Hts.
    intros ->. reflexivity.
  - auto.
Qed.

Lemma keeps_cleared (a b : WebSocket) :
  pendingTicks b = pendingTicks a ->
  awaitingUpgrade b = false ->
  keeps_upgrade_order a b.
Proof.
  intros Hticks Haw. split.
  - unfold no_upgrade_pending. rewrite Hticks. auto.
  - rewrite Haw. intros H. discriminate H.
Qed.

Ltac keep :=
  eapply keeps_intro;
  [ simpl; first [reflexivity | symmetry; apply app_nil_r]
  | reflexivity
  | simpl; let H := fresh in intros H; exact H
  | unfold before_upgrade; simpl;
    let H := fresh in
    intros H;
    first [exact H | right; reflexivity | destruct H as [H|H]; discriminate H] ].

Lemma send_upgrade_order (data : JsData) (options : OptionsArg)
    (cb : option Callback) :
  stable keeps_upgrade_order (send data options cb).
Proof.
  intros w. open_record w. unfold send.
  destruct options as [|o|g]; simpl;
    destruct rs; try (destruct cb; keep);
    destruct (truthy data); simpl; destruct qu; try keep;
    destruct data; keep.
Qed.

Lemma stream_upgrade_order (options : OptionsArg) (cb : option Callback) :
  stable keeps_upgrade_order (stream options cb).
Proof.
  intros w. open_record w. unfold stream.
  destruct options as [|o|g]; simpl;
    try destruct cb; try keep; destruct rs, qu; keep.
Qed.

Lemma executeQueueSends_upgrade_order :
  stable keeps_upgrade_order executeQueueSends.
Proof.
  unfold executeQueueSends.
  apply (stable_bind keeps_upgrade_order_trans);
    [apply (stable_this keeps_upgrade_order_refl)|].
  intros w0. destruct (_queue w0) as [q|].
  - apply (stable_bind keeps_upgrade_order_trans).
    + apply stable_assign. intros w. destruct w. keep.
    + intros _.
      apply (stable_for_each keeps_upgrade_order_refl keeps_upgrade_order_trans).
      intros [data o cb|o cb];
        [apply send_upgrade_order|apply stream_upgrade_order].
  - apply (stable_ret keeps_upgrade_order_refl).
Qed.

Lemma stream_send_upgrade_order (options : Options) (cb : Callback)
    (data final : JsData) :
  stable keeps_upgrade_order (stream_send options cb data final).
Proof.
  unfold stream_send.
  apply (stable_try_catch keeps_upgrade_order_trans);
    [|intros e; apply (stable_tell keeps_upgrade_order_refl)].
  apply (stable_bind keeps_upgrade_order_trans);
    [apply (stable_this keeps_upgrade_order_refl)|].
  intros w0. destruct (negb (readyState_is OPEN w0));
    [apply (stable_throw keeps_upgrade_order_refl)|].
  apply (stable_bind keeps_upgrade_order_trans);
    [apply (stable_tell keeps_upgrade_order_refl)|].
  intros _. destruct (negb (truthy final)).
  - intros w. destruct w. keep.
  - apply executeQueueSends_upgrade_order.
Qed.

Lemma stream_on_data_upgrade_order (data : JsData) (l : StreamListener) :
  stable keeps_upgrade_order (stream_on_data l data).
Proof.
  intros w. open_record w. destruct l as [id o [[[f|]]|]], rs; keep.
Qed.

Lemma stream_on_end_upgrade_order (l : StreamListener) :
  stable keeps_upgrade_order (stream_on_end l).
Proof.
  intros w. open_record w. destruct l as [id o [[[f|]]|]], rs; keep.
Qed.

Lemma step_upgrade_order (i : Input) (w : WebSocket) :
  upgrade_in_order w -> keeps_upgrade_order w (after (step i w)).
Proof.
  intros [Hticks Hbefore]. destruct (step_listeners i w) as [_ [-> _]].
  destruct i; unfold listeners.
  - open_record w. destruct rs, sock; keep.
  - open_record w. destruct rs; keep.
  - open_record w. destruct rs; keep.
  - apply send_upgrade_order.
  - apply stream_upgrade_order.
  - open_record w. destruct rs, sock; keep.
  - apply stream_send_upgrade_order.
  - unfold no_upgrade_pending in Hticks.
    destruct (pendingTicks w) as [|t rest] eqn:Hpending.
    + apply keeps_upgrade_order_refl.
    + simpl in Hticks. apply andb_true_iff in Hticks as [Ht Hrest].
      apply (stable_bind keeps_upgrade_order_trans
               (assign (set_pendingTicks rest)) (fun _ => run_task t)).
      * intros w'. split.
        -- intros _. destruct w'; exact Hrest.
        -- destruct w'; simpl; auto.
      * intros _. destruct t as [head| |cb o]; [discriminate Ht| |].
        -- apply executeQueueSends_upgrade_order.
        -- apply (stable_tell keeps_upgrade_order_refl).
  - open_record w. destruct srv; keep.
  - open_record w. destruct srv, awaiting; try keep.
    apply keeps_cleared; unfold request_on_upgrade;
      destruct serverKey as [k|], rs;
      unfold bind, assign, this, readyState_is; simpl;
      try destruct (String.eqb k key); simpl;
      try destruct (non_empty upgradeHead); reflexivity.
  - open_record w. destruct wir, rs; keep.
  - open_record w. destruct wir, rs; keep.
  - open_record w. destruct wir; keep.
  - open_record w. destruct wir; keep.
  - open_record w. destruct wir, rs; keep.
  - apply keeps_upgrade_order_refl.
  - open_record w. destruct wir, rs, sock; keep.
  - open_record w. unfold receiver_on_error.
    destruct wir, (defined errorCode), rs, sock; keep.
  - open_record w. destruct wir; keep.
  - apply (stable_dispatch keeps_upgrade_order_refl keeps_upgrade_order_trans).
    intros l. apply stream_on_data_upgrade_order.
  - apply (stable_dispatch keeps_upgrade_order_refl keeps_upgrade_order_trans).
    intros l. apply stream_on_end_upgrade_order.
Qed.

Lemma upgrade_in_order_step (i : Input) (w : WebSocket) :
  upgrade_in_order w -> upgrade_in_order (after (step i w)).
Proof.
  intros Hw. destruct (step_upgrade_order i w Hw) as [Hticks Haw].
  destruct Hw as [Hw1 Hw2]. split; [auto|].
  intros H. destruct (Haw H) as [Ha Hb]. auto.
Qed.

Lemma upgrade_in_order_runs (i : Input) (w : WebSocket) :
  upgrade_in_order w -> runs_upgrade i w = true -> _readyState w = CONNECTING.
Proof.
  intros [Hticks Hbefore]. unfold runs_upgrade.
  destruct i; try discriminate.
  - unfold no_upgrade_pending in Hticks.
    destruct (pendingTicks w) as [|[head| |cb o] rest];
      try discriminate; simpl in Hticks; discriminate Hticks.
  - destruct serverKey as [k|]; [|discriminate].
    intros H.
    apply andb_true_iff in H as [H _]. apply andb_true_iff in H as [H Hclosed].
    apply andb_true_iff in H as [_ Haw].
    destruct (Hbefore Haw) as [Hc|Hc]; [exact Hc|].
    apply negb_true_iff, readyState_is_false in Hclosed. now elim Hclosed.
Qed.

Lemma path_trajectory (inputs : list Input) (w : WebSocket) :
  upgrade_in_order w -> path (trajectory inputs w) = true.
Proof.
  revert w. induction inputs as [|i rest IH]; intros w Hw; [reflexivity|].
  change (trajectory (i :: rest) w)
    with (_readyState w :: trajectory rest (after (step i w))).
  specialize (IH _ (upgrade_in_order_step i w Hw)).
  destruct rest as [|j rest'];
    cbn [trajectory path] in IH |- *;
    rewrite ?IH, ?andb_true_r;
    (destruct (step_readyState i w (upgrade_in_order_runs i w Hw)) as [-> | ->];
     [destruct (_readyState w); reflexivity | apply orb_true_r]).
Qed.

(** C2, as the code has it.  For a client session, and for a server-side
    session whose scheduled [upgrade] is the first thing to run, every
    sequence of operations and events takes ready_state along a path whose
    moves are Connecting -> Open, Connecting -> Closed, Open -> Closing,
    Open -> Closed and Closing -> Closed.  Entry by entry and from any
    session: unless the entry runs [upgrade] on a session that has left
    Connecting, ready_state stays or makes one of these moves. *)
Theorem readyState_path (inputs : list Input) :
  (forall host version now w,
     new_client host version now = Normal w ->
     path (trajectory inputs w) = true) /\
  (forall upgradeHead,
     path (trajectory (Tick :: inputs) (new_server upgradeHead)) = true) /\
  (forall i w,
     (runs_upgrade i w = true -> _readyState w = CONNECTING) ->
     _readyState (after (step i w)) = _readyState w \/
     designed_move (_readyState w) (_readyState (after (step i w))) = true).
Proof.
  split; [|split].
  - intros host version now w Hnew. apply path_trajectory.
    unfold new_client in Hnew.
    destruct host as [h|]; [|discriminate Hnew].
    destruct (String.eqb h ""); [discriminate Hnew|].
    destruct (negb (version =? 8)%N && negb (version =? 13)%N);
      [discriminate Hnew|].
    injection Hnew as <-. split; [reflexivity|]. intros _. left. reflexivity.
  - intros upgradeHead.
    change (trajectory (Tick :: inputs) (new_server upgradeHead))
      with (CONNECTING ::
            trajectory inputs (after (step Tick (new_server upgradeHead)))).
    assert (Hopen : upgrade_in_order (after (step Tick (new_server upgradeHead)))).
    { destruct (non_empty upgradeHead) eqn:Hne;
        (split; [unfold no_upgrade_pending, step, listeners, run_task, upgrade;
                 simpl; rewrite Hne; reflexivity|]);
        unfold step, listeners, run_task, upgrade; simpl; rewrite Hne; simpl;
        intros H; discriminate H. }
    pose proof (path_trajectory inputs _ Hopen) as Hrest.
    assert (Hstate : _readyState (after (step Tick (new_server upgradeHead))) = OPEN).
    { unfold step, listeners, run_task, upgrade; simpl.
      destruct (non_empty upgradeHead); reflexivity. }
    destruct inputs as [|j rest]; cbn [trajectory path] in Hrest |- *;
      rewrite Hstate in *; [reflexivity|exact Hrest].
  - exact step_readyState.
Qed.

Lemma readyState_path_witness :
  (runs_upgrade Tick (new_server DUndefined) = true ->
   _readyState (new_server DUndefined) = CONNECTING) /\
  (_readyState (after (step Tick (new_server DUndefined)))
     = _readyState (new_server DUndefined) \/
   designed_move (_readyState (new_server DUndefined))
     (_readyState (after (step Tick (new_server DUndefined)))) = true) /\
  path (trajectory [Tick; Call_send (DString "hi") ArgAbsent None;
                    Call_close (DNumber 1000) (DString ""); Socket_end]
          (new_server DUndefined)) = true /\
  trajectory [Tick; Call_send (DString "hi") ArgAbsent None;
              Call_close (DNumber 1000) (DString ""); Socket_end]
    (new_server DUndefined)
  = [CONNECTING; OPEN; OPEN; CLOSING; CLOSED].
Proof.
  split; [intros _; reflexivity|]. split.
  - apply (proj2 (proj2 (readyState_path []))). intros _. reflexivity.
  - split; [|reflexivity].
    apply (proj1 (proj2 (readyState_path
      [Call_send (DString "hi") ArgAbsent None;
       Call_close (DNumber 1000) (DString ""); Socket_end]))).
Defined.

Example trajectory_client :
  match new_client (Some "example"%string) 13 1700000000000 with
  | Normal w =>
      trajectory [Request_upgrade (Some (expectedServerKey w)) DUndefined;
                  Socket_close] w
      = [CONNECTING; OPEN; CLOSED]
  | Throw _ => False
  end.
Proof. vm_compute. reflexivity. Qed.

(* ================================================================== *)
(** * Further properties *)
(* ================================================================== *)

(** ** The constructor of a client *)

Lemma present_true (s : option string) :
  present s = true <-> exists x, s = Some x /\ x <> ""%string.
Proof.
  destruct s as [x|]; simpl; split.
  - intros H. exists x. split; [reflexivity|].
    apply negb_true_iff in H. apply String.eqb_neq. exact H.
  - intros [y [Hy Hne]]. injection Hy as <-.
    apply negb_true_iff. apply String.eqb_neq. exact Hne.
  - discriminate.
  - intros [y [Hy _]]. discriminate Hy.
Qed.

Lemma WebSocket_client_cases (isNodeV4 : bool) (u : Url) (o : ClientOptions)
    (now : N) :
  match WebSocket_client isNodeV4 u o now with
  | Throw e =>
      (present (url_host u) = false /\ e = invalid_url) \/
      (present (url_host u) = true /\
       protocolVersion o <> 8%N /\ protocolVersion o <> 13%N /\
       e = unsupported_version)
  | Normal (w, r) =>
      present (url_host u) = true /\
      (protocolVersion o = 8%N \/ protocolVersion o = 13%N) /\
      new_client (url_host u) (protocolVersion o) now = Normal w /\
      _readyState w = CONNECTING /\ _isServer w = false /\
      _socket w = false /\ _queue w = None /\ awaitingUpgrade w = true /\
      r = requestOptions isNodeV4 u o (session_key (protocolVersion o) now)
  end.
Proof.
  unfold WebSocket_client, new_client.
  destruct (url_host u) as [h|]; simpl; [|left; split; reflexivity].
  destruct (String.eqb h ""); simpl; [left; split; reflexivity|].
  destruct (N.eqb_spec (protocolVersion o) 8) as [H8|H8];
    destruct (N.eqb_spec (protocolVersion o) 13) as [H13|H13]; simpl;
    repeat split; auto.
Qed.

(** X1.  The constructor of a client throws 'invalid url' exactly when the
    parsed address has no host, and otherwise 'unsupported protocol
    version' exactly when the version is neither 8 nor 13 (the url is
    tested first); in every other case it returns a session that is
    Connecting, has no socket and no queue, and awaits the upgrade. *)
Theorem constructor_validation (isNodeV4 : bool) (u : Url) (o : ClientOptions)
    (now : N) :
  match WebSocket_client isNodeV4 u o now with
  | Throw e =>
      (present (url_host u) = false /\ e = invalid_url) \/
      (present (url_host u) = true /\
       protocolVersion o <> 8%N /\ protocolVersion o <> 13%N /\
       e = unsupported_version)
  | Normal (w, r) =>
      present (url_host u) = true /\
      (protocolVersion o = 8%N \/ protocolVersion o = 13%N) /\
      new_client (url_host u) (protocolVersion o) now = Normal w /\
      _readyState w = CONNECTING /\ _isServer w = false /\
      _socket w = false /\ _queue w = None /\ awaitingUpgrade w = true /\
      r = requestOptions isNodeV4 u o (session_key (protocolVersion o) now)
  end.
Proof.
  unfold WebSocket_client, new_client.
  destruct (url_host u) as [h|]; simpl; [|left; split; reflexivity].
  destruct (String.eqb h ""); simpl; [left; split; reflexivity|].
  destruct (N.eqb_spec (protocolVersion o) 8) as [H8|H8];
    destruct (N.eqb_spec (protocolVersion o) 13) as [H13|H13]; simpl;
    repeat split; auto.
Qed.

Example constructor_rejects :
  WebSocket_client false
    {| url_protocol := Some "ws:"%string; url_host := None;
       url_hostname := None; url_port := None; url_pathname := None;
       url_search := None; url_path := None |}
    {| origin := None; protocolVersion := 7; protocol := None |} 0
  = Throw invalid_url /\
  WebSocket_client false
    {| url_protocol := Some "ws:"%string; url_host := Some "example"%string;
       url_hostname := Some "example"%string; url_port := None;
       url_pathname := None; url_search := None; url_path := None |}
    {| origin := None; protocolVersion := 7; protocol := None |} 0
  = Throw unsupported_version.
Proof. split; reflexivity. Qed.

(** X2.  The headers of the upgrade request of a client that was
    constructed: the four fixed headers, with the version and the session
    key; Sec-WebSocket-Protocol exactly when a protocol was asked for; and
    the origin, when one was given, under the name Origin for version 13
    and Sec-WebSocket-Origin for version 8, never under both. *)
Theorem request_headers_spec (isNodeV4 : bool) (u : Url) (o : ClientOptions)
    (now : N) (w : WebSocket) (r : Request) :
  WebSocket_client isNodeV4 u o now = Normal (w, r) ->
  let h name := header name (request_headers r) in
  h "Connection"%string = Some (DString "Upgrade") /\
  h "Upgrade"%string = Some (DString "websocket") /\
  h "Sec-WebSocket-Version"%string = Some (DNumber (Z.of_N (protocolVersion o))) /\
  h "Sec-WebSocket-Key"%string
    = Some (DString (session_key (protocolVersion o) now)) /\
  h "Sec-WebSocket-Protocol"%string
    = (if present (protocol o) then option_map DString (protocol o) else None) /\
  h "Origin"%string
    = (if present (origin o) && N.eqb (protocolVersion o) 13
       then option_map DString (origin o) else None) /\
  h "Sec-WebSocket-Origin"%string
    = (if present (origin o) && N.eqb (protocolVersion o) 8
       then option_map DString (origin o) else None) /\
  (h "Origin"%string = None \/ h "Sec-WebSocket-Origin"%string = None).
Proof.
  intros Hnew.
  pose proof (WebSocket_client_cases isNodeV4 u o now) as Hv.
  rewrite Hnew in Hv. destruct Hv as [_ [Hver [_ [_ [_ [_ [_ [_ ->]]]]]]]].
  cbv zeta. unfold requestOptions. cbn [request_headers].
  destruct (protocol o) as [p|]; destruct (origin o) as [org|];
    cbn [present option_map];
    try destruct (String.eqb p ""); try destruct (String.eqb org "");
    cbn [negb andb];
    destruct Hver as [-> | ->]; cbn; repeat split; auto.
Qed.

Lemma request_headers_spec_witness :
  let u := {| url_protocol := Some "ws:"; url_host := Some "example:8080";
              url_hostname := Some "example"; url_port := Some "8080";
              url_pathname := Some "/chat"; url_search := None;
              url_path := Some "/chat" |}%string in
  let o := {| origin := Some "http://example"%string; protocolVersion := 8;
              protocol := Some "chat"%string |} in
  match WebSocket_client false u o 5 with
  | Normal (w, r) =>
      header "Sec-WebSocket-Origin" (request_headers r)
        = Some (DString "http://example") /\
      header "Origin" (request_headers r) = None /\
      header "Sec-WebSocket-Protocol" (request_headers r) = Some (DString "chat") /\
      header "Sec-WebSocket-Key" (request_headers r) = Some (DString "OC01")
  | Throw _ => False
  end.
Proof.
  cbv zeta.
  destruct (WebSocket_client false _ _ 5) as [[w r]|e] eqn:Hnew;
    [|vm_compute in Hnew; discriminate Hnew].
  destruct (request_headers_spec _ _ _ _ _ _ Hnew)
    as [_ [_ [_ [Hkey [Hproto [Horigin [Hsec _]]]]]]].
  repeat split.
  - rewrite Hsec. reflexivity.
  - rewrite Horigin. reflexivity.
  - rewrite Hproto. reflexivity.
  - rewrite Hkey. vm_compute. reflexivity.
Defined.

(** An upgrade response that carries the expected accept value, on a
    client that awaits it and has not been closed. *)
Lemma upgrade_accepted (w : WebSocket) (upgradeHead : JsData) :
  _isServer w = false ->
  awaitingUpgrade w = true ->
  _readyState w <> CLOSED ->
  step (Request_upgrade (Some (expectedServerKey w)) upgradeHead) w
  = {| completion := Normal tt;
       after := set_readyState OPEN (set_wired true (set_socket true
                  (set_awaitingUpgrade false w)));
       effects := [SocketSetTimeout 0; SocketSetNoDelay true; Emit Ev_open]
                  ++ (if non_empty upgradeHead then [ReceiverAdd upgradeHead]
                      else []) |}.
Proof.
  intros Hsrv Haw Hrs. open_record w. subst srv awaiting.
  unfold step, listeners, request_on_upgrade.
  destruct rs; try (now elim Hrs);
    unfold bind, this, assign, readyState_is; simpl;
    rewrite String.eqb_refl; simpl;
    destruct (non_empty upgradeHead); reflexivity.
Qed.

(** X3.  A server that answers the request as RFC 6455 has it is accepted:
    when the accept value of the response is the base64 SHA-1 of the
    request's Sec-WebSocket-Key header followed by the GUID, the session
    configures the socket, becomes Open and emits 'open', and only then
    hands the bytes that came with the response to the Receiver. *)
Theorem compliant_server_accepted (isNodeV4 : bool) (u : Url)
    (o : ClientOptions) (now : N) (w : WebSocket) (r : Request) (key : string)
    (upgradeHead : JsData) :
  WebSocket_client isNodeV4 u o now = Normal (w, r) ->
  header "Sec-WebSocket-Key" (request_headers r) = Some (DString key) ->
  let accept := Crypto.sha1_base64 (key ++ "258EAFA5-E914-47DA-95CA-C5AB0DC85B11") in
  let s := step (Request_upgrade (Some accept) upgradeHead) w in
  completion s = Normal tt /\
  _readyState (after s) = OPEN /\
  _socket (after s) = true /\
  effects s = [SocketSetTimeout 0; SocketSetNoDelay true; Emit Ev_open]
              ++ (if non_empty upgradeHead then [ReceiverAdd upgradeHead] else []).
Proof.
  intros Hnew Hkey.
  pose proof (WebSocket_client_cases isNodeV4 u o now) as Hv.
  rewrite Hnew in Hv.
  destruct Hv as [_ [Hver [Hclient [Hrs [Hsrv [_ [_ [Haw Hr]]]]]]]].
  assert (Hk : key = session_key (protocolVersion o) now).
  { subst r. unfold requestOptions in Hkey. cbn [request_headers] in Hkey.
    destruct (protocol o) as [p|]; destruct (origin o) as [org|];
      cbn [present] in Hkey;
      try destruct (negb (String.eqb p "")); try destruct (negb (String.eqb org ""));
      try destruct (protocolVersion o <? 13)%N;
      cbn [header app String.eqb Ascii.eqb Bool.eqb] in Hkey;
      injection Hkey as <-; reflexivity. }
  assert (Hexp : expectedServerKey w
                 = Crypto.sha1_base64 (key ++ "258EAFA5-E914-47DA-95CA-C5AB0DC85B11")).
  { subst key. unfold new_client in Hclient.
    destruct (url_host u) as [h|]; [|discriminate Hclient].
    destruct (String.eqb h ""); [discriminate Hclient|].
    destruct (negb (protocolVersion o =? 8)%N && negb (protocolVersion o =? 13)%N);
      [discriminate Hclient|].
    injection Hclient as <-. reflexivity. }
  cbv zeta. rewrite <- Hexp.
  rewrite (upgrade_accepted w upgradeHead Hsrv Haw);
    [|rewrite Hrs; discriminate].
  repeat split.
Qed.

Lemma compliant_server_accepted_witness :
  let u := {| url_protocol := Some "ws:"; url_host := Some "example";
              url_hostname := Some "example"; url_port := None;
              url_pathname := None; url_search := None;
              url_path := None |}%string in
  let o := {| origin := None; protocolVersion := 13; protocol := None |} in
  match WebSocket_client false u o 0 with
  | Normal (w, r) =>
      header "Sec-WebSocket-Key" (request_headers r) = Some (DString "MTMtMA==") /\
      effects (step (Request_upgrade
                 (Some (Crypto.sha1_base64
                    ("MTMtMA==" ++ "258EAFA5-E914-47DA-95CA-C5AB0DC85B11")))
                 (DString "tail")) w)
      = [SocketSetTimeout 0; SocketSetNoDelay true; Emit Ev_open;
         ReceiverAdd (DString "tail")]
  | Throw _ => False
  end.
Proof.
  cbv zeta.
  destruct (WebSocket_client false _ _ 0) as [[w r]|e] eqn:Hnew;
    [|vm_compute in Hnew; discriminate Hnew].
  assert (Hkey : header "Sec-WebSocket-Key" (request_headers r)
                 = Some (DString "MTMtMA==")).
  { vm_compute in Hnew. injection Hnew as _ <-. reflexivity. }
  split; [exact Hkey|].
  exact (proj2 (proj2 (proj2
    (compliant_server_accepted _ _ _ _ _ _ _ (DString "tail") Hnew Hkey)))).
Defined.

(** X4.  Where the request goes: through the TLS module exactly for the
    schemes wss: and https:; to the port of the url, and to port 80 when
    the url names none, whatever the scheme; with a path that is never
    empty ("/" when the url has none). *)
Theorem request_target (isNodeV4 : bool) (u : Url) (o : ClientOptions)
    (key : string) :
  let r := requestOptions isNodeV4 u o key in
  (via r = https <->
   url_protocol u = Some "wss:"%string \/ url_protocol u = Some "https:"%string) /\
  (present (url_port u) = false -> request_port r = DNumber 80) /\
  (present (url_port u) = true ->
   exists p, url_port u = Some p /\ request_port r = DString p) /\
  request_path r <> ""%string /\
  (isNodeV4 = false -> present (url_path u) = false -> request_path r = "/"%string) /\
  request_host r = url_hostname u.
Proof.
  cbv zeta. unfold requestOptions. cbn [via request_port request_path request_host].
  split; [|split; [|split; [|split; [|split]]]].
  - destruct (url_protocol u) as [p|]; [|split; [discriminate|intros [H|H]; discriminate H]].
    destruct (String.eqb_spec p "wss:") as [->|Hw]; simpl.
    + split; auto.
    + destruct (String.eqb_spec p "https:") as [->|Hh]; simpl.
      * split; auto.
      * split; [discriminate|].
        intros [H|H]; injection H as ->; [now elim Hw|now elim Hh].
  - unfold port_or_80, present. destruct (url_port u) as [p|]; [|reflexivity].
    destruct (String.eqb p ""); [reflexivity|discriminate].
  - unfold port_or_80, present. destruct (url_port u) as [p|]; [|discriminate].
    destruct (String.eqb p ""); [discriminate|]. intros _. exists p. auto.
  - assert (Hne : forall x, or_string x "/" <> ""%string).
    { intros [x|]; simpl; [|discriminate].
      destruct (String.eqb_spec x ""); [discriminate|assumption]. }
    destruct isNodeV4; [|apply Hne].
    specialize (Hne (url_pathname u)).
    destruct (or_string (url_pathname u) "/"); [now elim Hne|discriminate].
  - intros -> Hp. unfold present in Hp. unfold or_string.
    destruct (url_path u) as [x|]; [|reflexivity].
    destruct (String.eqb x ""); [reflexivity|discriminate Hp].
  - reflexivity.
Qed.

Lemma request_target_witness :
  let u := {| url_protocol := Some "wss:"; url_host := Some "example";
              url_hostname := Some "example"; url_port := None;
              url_pathname := None; url_search := None;
              url_path := None |}%string in
  present (url_port u) = false /\
  via (requestOptions false u
         {| origin := None; protocolVersion := 13; protocol := None |} "k") = https /\
  request_port (requestOptions false u
         {| origin := None; protocolVersion := 13; protocol := None |} "k")
    = DNumber 80.
Proof.
  cbv zeta. split; [reflexivity|]. split; [reflexivity|].
  exact (proj1 (proj2 (request_target false
    {| url_protocol := Some "wss:"; url_host := Some "example";
       url_hostname := Some "example"; url_port := None;
       url_pathname := None; url_search := None; url_path := None |}%string
    {| origin := None; protocolVersion := 13; protocol := None |} "k")) eq_refl).
Defined.

(** ** onopen, onerror, onclose, onmessage *)

(** X5.  Reading back what was set: after [ws.on<method> = f] with a
    function [f], [ws.on<method>] is [f], whatever listeners there were
    before; for onmessage this holds although the listener that was
    installed is a wrapper and not [f]. *)
Theorem get_on_set_on (method : string) (f : Callback) (e : Emitter) :
  get_on method (set_on method (Some f) e) = Some (Function f) /\
  set_on "message" (Some f) e "message"%string = [Message_wrapper f].
Proof.
  split.
  - unfold get_on, set_on, on, removeAllListeners.
    destruct (String.eqb method "message"); rewrite String.eqb_refl;
      reflexivity.
  - reflexivity.
Qed.

(** X6.  Setting one of the properties replaces every listener of that
    event, also those added with [on], by the one function (by none when
    the value is not a function, and the getter then gives undefined), and
    leaves the listeners of every other event alone. *)
Theorem set_on_replaces (method : string) (value : option Callback)
    (e : Emitter) :
  List.length (set_on method value e method)
    = (match value with Some _ => 1 | None => 0 end) /\
  get_on method (set_on method None e) = None /\
  (forall other, other <> method -> set_on method value e other = e other) /\
  (forall other, other <> method ->
     get_on other (set_on method value e) = get_on other e).
Proof.
  assert (Hother : forall other, other <> method ->
            set_on method value e other = e other).
  { intros other Hne. apply String.eqb_neq in Hne.
    unfold set_on, on, removeAllListeners.
    destruct value as [f|]; [destruct (String.eqb method "message")|];
      rewrite ?Hne; reflexivity. }
  repeat split.
  - unfold set_on, on, removeAllListeners.
    destruct value as [f|]; [destruct (String.eqb method "message")|];
      rewrite ?String.eqb_refl; reflexivity.
  - unfold get_on, set_on, removeAllListeners. rewrite String.eqb_refl.
    reflexivity.
  - exact Hother.
  - intros other Hne. unfold get_on. rewrite (Hother other Hne). reflexivity.
Qed.

Lemma set_on_replaces_witness :
  let e := on "message" (Function 1) (on "message" (Function 2)
             (on "close" (Function 3) no_listeners)) in
  "close"%string <> "message"%string /\
  e "message"%string = [Function 2; Function 1] /\
  set_on "message" (Some 9) e "message"%string = [Message_wrapper 9] /\
  get_on "close" (set_on "message" (Some 9) e) = Some (Function 3).
Proof.
  cbv zeta. split; [discriminate|]. split; [reflexivity|]. split; [reflexivity|].
  rewrite (proj2 (proj2 (proj2 (set_on_replaces "message" (Some 9)
    (on "message" (Function 1) (on "message" (Function 2)
       (on "close" (Function 3) no_listeners))))))
    "close"%string ltac:(discriminate)).
  reflexivity.
Defined.

(** X7.  What the application's function gets on a message: set through
    onmessage it is called once, with the object [{data: data}] and without
    the flags; a function added with [on('message', g)] is called with
    the data and the flags.  The getter shows the first listener only. *)
Theorem onmessage_delivery (f g : Callback) (data : JsData) (flags : Flags)
    (e : Emitter) :
  deliver_message data flags (set_on "message" (Some f) e)
    = [Called_with_event f data] /\
  deliver_message data flags (on "message" (Function g) (set_on "message" (Some f) e))
    = [Called_with_event f data; Called g data flags] /\
  get_on "message" (on "message" (Function g) (set_on "message" (Some f) e))
    = Some (Function f) /\
  deliver_message data flags (on "message" (Function g) (removeAllListeners "message" e))
    = [Called g data flags].
Proof. repeat split. Qed.

(** ** Nothing is sent unless the session is Open *)

Lemma sender_calls_app (a b : list Effect) :
  sender_calls (a ++ b) = sender_calls a ++ sender_calls b.
Proof. unfold sender_calls. apply flat_map_app. Qed.

Lemma sends_only_when_open_bind {A B} (m : M A) (k : A -> M B) :
  sends_only_when_open m -> (forall a, sends_only_when_open (k a)) ->
  sends_only_when_open (bind m k).
Proof.
  intros Hm Hk w Hw. unfold bind. destruct (Hm w Hw) as [Hs Hrs].
  destruct (completion (m w)) as [a|e]; simpl; [|auto].
  destruct (Hk a (after (m w)) Hrs) as [Hs' Hrs'].
  rewrite sender_calls_app, Hs, Hs'. auto.
Qed.

Lemma sends_only_when_open_try_catch (body : M unit)
    (handler : JsError -> M unit) :
  sends_only_when_open body -> (forall e, sends_only_when_open (handler e)) ->
  sends_only_when_open (try_catch body handler).
Proof.
  intros Hb Hh w Hw. unfold try_catch. destruct (Hb w Hw) as [Hs Hrs].
  destruct (completion (body w)) as [a|e]; simpl; [auto|].
  destruct (Hh e (after (body w)) Hrs) as [Hs' Hrs'].
  rewrite sender_calls_app, Hs, Hs'. auto.
Qed.

Lemma send_only_when_open (data : JsData) (options : OptionsArg)
    (cb : option Callback) :
  sends_only_when_open (send data options cb).
Proof.
  intros w Hw. open_record w. unfold send.
  destruct options as [|o|g]; simpl;
    destruct rs; try (now elim Hw); destruct cb;
    split; first [reflexivity | discriminate].
Qed.

Lemma stream_only_when_open (options : OptionsArg) (cb : option Callback) :
  sends_only_when_open (stream options cb).
Proof.
  intros w Hw. open_record w. unfold stream.
  destruct options as [|o|g]; simpl;
    destruct rs; try (now elim Hw); try destruct cb;
    split; first [reflexivity | discriminate].
Qed.

Lemma for_each_only_when_open (q : list Deferred) :
  sends_only_when_open (for_each q).
Proof.
  induction q as [|d q IH]; simpl.
  - intros w Hw. auto.
  - apply sends_only_when_open_bind; [|intros _; exact IH].
    destruct d; [apply send_only_when_open|apply stream_only_when_open].
Qed.

Lemma executeQueueSends_only_when_open : sends_only_when_open executeQueueSends.
Proof.
  unfold executeQueueSends. apply sends_only_when_open_bind.
  - intros w Hw. auto.
  - intros w0. destruct (_queue w0) as [q|]; [|intros w Hw; auto].
    apply sends_only_when_open_bind; [|intros _; apply for_each_only_when_open].
    intros w Hw. destruct w; auto.
Qed.

Lemma stream_send_only_when_open (options : Options) (cb : Callback)
    (data final : JsData) :
  sends_only_when_open (stream_send options cb data final).
Proof.
  intros w Hw. open_record w.
  destruct rs; try (now elim Hw); split; first [reflexivity | discriminate].
Qed.

Lemma dispatch_only_when_open (ls : list StreamListener) (id : nat)
    (listener : StreamListener -> M unit) :
  (forall l, sends_only_when_open (listener l)) ->
  sends_only_when_open (dispatch ls id listener).
Proof.
  intros Hl. induction ls as [|l ls IH]; simpl.
  - intros w Hw. auto.
  - apply sends_only_when_open_bind; [|intros _; exact IH].
    destruct (Nat.eqb (on_stream l) id); [apply Hl|intros w Hw; auto].
Qed.

Lemma stream_listeners_only_when_open (l : StreamListener) :
  (forall data, sends_only_when_open (stream_on_data l data)) /\
  sends_only_when_open (stream_on_end l).
Proof.
  split; [intros data|]; intros w Hw; open_record w;
    destruct l as [id o [[[f|]]|]], rs; try (now elim Hw);
    split; first [reflexivity | discriminate].
Qed.

Lemma listeners_only_when_open (i : Input) (w : WebSocket) :
  _readyState w <> OPEN -> sender_calls (effects (listeners i w w)) = [].
Proof.
  intros Hw. destruct i; unfold listeners.
  - open_record w. destruct rs; try (now elim Hw); reflexivity.
  - open_record w. destruct rs; try (now elim Hw); reflexivity.
  - open_record w. destruct rs; try (now elim Hw); reflexivity.
  - apply send_only_when_open. exact Hw.
  - apply stream_only_when_open. exact Hw.
  - open_record w. destruct rs, sock; try (now elim Hw); reflexivity.
  - apply stream_send_only_when_open. exact Hw.
  - destruct (pendingTicks w) as [|[head| |cb o] rest].
    + reflexivity.
    + open_record w. destruct (non_empty head); reflexivity.
    + apply (sends_only_when_open_bind (assign (set_pendingTicks rest))
               (fun _ => run_task Task_executeQueueSends)); [| |exact Hw].
      * intros w' Hw'. destruct w'; auto.
      * intros _. apply executeQueueSends_only_when_open.
    + reflexivity.
  - open_record w. destruct srv; reflexivity.
  - open_record w. destruct srv, awaiting; try reflexivity.
    unfold request_on_upgrade.
    destruct serverKey as [k|], rs; try (now elim Hw);
      unfold bind, assign, this, readyState_is; simpl;
      try destruct (String.eqb k key); simpl;
      try destruct (non_empty upgradeHead); reflexivity.
  - open_record w. destruct wir, rs; try (now elim Hw); reflexivity.
  - open_record w. destruct wir, rs; try (now elim Hw); reflexivity.
  - open_record w. destruct wir; reflexivity.
  - open_record w. destruct wir; reflexivity.
  - open_record w. destruct wir, rs; try (now elim Hw); reflexivity.
  - reflexivity.
  - open_record w. destruct wir, rs; try (now elim Hw); reflexivity.
  - open_record w. unfold receiver_on_error.
    destruct wir, (defined errorCode), rs; try (now elim Hw); reflexivity.
  - open_record w. destruct wir; reflexivity.
  - apply dispatch_only_when_open; [|exact Hw].
    intros l. apply stream_listeners_only_when_open.
  - apply dispatch_only_when_open; [|exact Hw].
    intros l. apply stream_listeners_only_when_open.
Qed.

(** X8.  Whatever enters a session that is not Open -- a call of the API,
    a turn of the loop (a queue release included), a chunk of a stream, an
    event of the socket, the Receiver or the request -- no call reaches the
    Sender during that entry. *)
Theorem no_frame_unless_open (i : Input) (w : WebSocket) :
  _readyState w <> OPEN -> sender_calls (effects (step i w)) = [].
Proof.
  intros Hw. destruct (step_listeners i w) as [_ [_ ->]].
  apply listeners_only_when_open. exact Hw.
Qed.

Lemma no_frame_unless_open_witness :
  let w := fst (run [Call_send (DReadStream 0) ArgAbsent None;
                     Call_send (DString "X") ArgAbsent (Some 2);
                     Stream_end 0;
                     Call_close (DNumber 1000) (DString "")] open_server) in
  _readyState w <> OPEN /\
  pendingTicks w = [Task_executeQueueSends] /\
  _queue w = Some [Deferred_send (DString "X") None (Some 2)] /\
  sender_calls (effects (step Tick w)) = [].
Proof.
  cbv zeta. split; [discriminate|]. split; [reflexivity|]. split; [reflexivity|].
  apply (no_frame_unless_open Tick). discriminate.
Defined.

(** ** Failing a call on a session that is not Open *)

(** X9.  [send] on a session that is not Open: with a callback -- given
    third, or second in place of the options -- it returns normally and
    calls the callback once with 'not opened'; without one it throws 'not
    opened'.  Either way nothing is sent or queued and the session is
    unchanged. *)
Theorem send_not_opened (data : JsData) (options : OptionsArg)
    (cb : option Callback) (w : WebSocket) :
  _readyState w <> OPEN ->
  send data options cb w
  = match snd (shift_arguments options cb) with
    | Some f => {| completion := Normal tt; after := w;
                   effects := [Invoke f (Some not_opened)] |}
    | None => {| completion := Throw not_opened; after := w; effects := [] |}
    end.
Proof.
  intros Hw. open_record w. unfold send.
  destruct options as [|o|g]; simpl;
    destruct rs; try (now elim Hw); destruct cb; reflexivity.
Qed.

Lemma send_not_opened_witness :
  let w := fst (run [Call_close (DNumber 1000) (DString "")] open_server) in
  _readyState w <> OPEN /\
  send (DString "late") (ArgFunction 4) None w
  = {| completion := Normal tt; after := w;
       effects := [Invoke 4 (Some not_opened)] |} /\
  send (DString "late") ArgAbsent None w
  = {| completion := Throw not_opened; after := w; effects := [] |}.
Proof.
  cbv zeta. split; [discriminate|]. split.
  - apply (send_not_opened (DString "late") (ArgFunction 4) None). discriminate.
  - apply (send_not_opened (DString "late") ArgAbsent None). discriminate.
Defined.

(** ** stream *)

(** X10.  [stream] insists on its callback before it looks at anything
    else: without a function it throws 'callback must be provided' in every
    state.  With one, on a session that is not Open it calls it with 'not
    opened'; on an open session without a queue it takes the queue, sends
    nothing and schedules the first call of the callback for the next turn
    of the loop, with the mask settled. *)
Theorem stream_start (options : OptionsArg) (cb : option Callback)
    (w : WebSocket) :
  let options' := fst (shift_arguments options cb) in
  match snd (shift_arguments options cb) with
  | None =>
      stream options cb w
      = {| completion := Throw no_callback; after := w; effects := [] |}
  | Some f =>
      (_readyState w <> OPEN ->
       stream options cb w
       = {| completion := Normal tt; after := w;
            effects := [Invoke f (Some not_opened)] |}) /\
      (_readyState w = OPEN -> _queue w = None ->
       stream options cb w
       = {| completion := Normal tt;
            after := set_pendingTicks
                       (pendingTicks w ++
                          [Task_streamCallback f (default_mask w (or_empty options'))])
                       (set_queue (Some []) w);
            effects := [] |})
  end.
Proof.
  cbv zeta. open_record w. unfold stream.
  destruct options as [|[[m|] b fi]|g]; simpl; try destruct cb as [c|];
    try reflexivity;
    (split; [intros Hw; destruct rs; try (now elim Hw); reflexivity|];
     intros -> ->; reflexivity).
Qed.

Lemma stream_start_witness :
  stream ArgAbsent None open_server
  = {| completion := Throw no_callback; after := open_server; effects := [] |} /\
  _readyState open_server = OPEN /\ _queue open_server = None /\
  stream (ArgFunction 7) None open_server
  = {| completion := Normal tt;
       after := set_pendingTicks
                  [Task_streamCallback 7
                     {| mask := Some false; binary := None; fin := None |}]
                  (set_queue (Some []) open_server);
       effects := [] |}.
Proof.
  split; [exact (stream_start ArgAbsent None open_server)|].
  split; [reflexivity|]. split; [reflexivity|].
  exact (proj2 (stream_start (ArgFunction 7) None open_server)
           eq_refl eq_refl).
Defined.

(** Releasing a queue of plain sends on an open session. *)
Lemma executeQueueSends_plain (q : list Deferred) (w : WebSocket) :
  _readyState w = OPEN ->
  _queue w = Some q ->
  forallb plain q = true ->
  executeQueueSends w
  = {| completion := Normal tt; after := set_queue None w;
       effects := flat_map (replayed w) q |}.
Proof.
  intros Hopen Hq Hplain.
  unfold executeQueueSends, bind at 1. simpl. rewrite Hq.
  unfold bind, assign. simpl.
  rewrite (for_each_plain q (set_queue None w)); try assumption; reflexivity.
Qed.

(** X11.  The push that ends a stream: when the second argument of the
    function handed to the callback is truthy, the data goes to the Sender
    first and the queue is released in the same call, so that the sends
    deferred behind the stream follow its last frame, in their order.  The
    frame is marked [fin] only when the argument is exactly [true]: any
    other truthy value releases the queue behind a frame with
    [fin = false]. *)
Theorem stream_last_push (o : Options) (cb : Callback) (data final : JsData)
    (w : WebSocket) (q : list Deferred) :
  _readyState w = OPEN ->
  _queue w = Some q ->
  forallb plain q = true ->
  truthy final = true ->
  stream_send o cb data final w
  = {| completion := Normal tt; after := set_queue None w;
       effects := ToSender (Sender_send data (set_fin (strictly_true final) o) None)
                  :: flat_map (replayed w) q |}.
Proof.
  intros Hopen Hq Hplain Hfinal.
  pose proof (executeQueueSends_plain q w Hopen Hq Hplain) as Hrelease.
  apply readyState_is_true in Hopen.
  unfold stream_send, try_catch, bind, this, tell.
  cbn -[executeQueueSends]. rewrite Hopen, Hfinal.
  cbn -[executeQueueSends]. rewrite Hrelease. reflexivity.
Qed.

Lemma stream_last_push_witness :
  let w := fst (run [Call_stream ArgAbsent (Some 7);
                     Call_send (DString "after") ArgAbsent None] open_server) in
  let o := {| mask := Some false; binary := None; fin := None |} in
  _readyState w = OPEN /\
  _queue w = Some [Deferred_send (DString "after") None None] /\
  sender_calls (effects (stream_send o 7 (DString "tail") (DBool true) w))
  = [Sender_send (DString "tail")
       {| mask := Some false; binary := None; fin := Some true |} None;
     Sender_send (DString "after")
       {| mask := Some false; binary := None; fin := Some true |} None] /\
  sender_calls (effects (stream_send o 7 (DString "tail") (DNumber 1) w))
  = [Sender_send (DString "tail")
       {| mask := Some false; binary := None; fin := Some false |} None;
     Sender_send (DString "after")
       {| mask := Some false; binary := None; fin := Some true |} None].
Proof.
  cbv zeta. split; [reflexivity|]. split; [reflexivity|]. split.
  - rewrite (stream_last_push
               {| mask := Some false; binary := None; fin := None |}
               7 (DString "tail") (DBool true)
               (fst (run [Call_stream ArgAbsent (Some 7);
                          Call_send (DString "after") ArgAbsent None] open_server))
               [Deferred_send (DString "after") None None]
               eq_refl eq_refl eq_refl eq_refl).
    reflexivity.
  - rewrite (stream_last_push
               {| mask := Some false; binary := None; fin := None |}
               7 (DString "tail") (DNumber 1)
               (fst (run [Call_stream ArgAbsent (Some 7);
                          Call_send (DString "after") ArgAbsent None] open_server))
               [Deferred_send (DString "after") None None]
               eq_refl eq_refl eq_refl eq_refl).
    reflexivity.
Defined.

(** X12.  A push that does not end the stream (second argument falsy) on
    an open session: one frame with [fin = false], the queue stays in
    place, and the callback is scheduled again for the next turn of the
    loop, where it is handed the same function. *)
Theorem stream_push (o : Options) (cb : Callback) (data final : JsData)
    (w : WebSocket) :
  _readyState w = OPEN ->
  truthy final = false ->
  let o' := set_fin false o in
  stream_send o cb data final w
  = {| completion := Normal tt;
       after := set_pendingTicks (pendingTicks w ++ [Task_streamCallback cb o']) w;
       effects := [ToSender (Sender_send data o' None)] |} /\
  _queue (after (stream_send o cb data final w)) = _queue w /\
  run_task (Task_streamCallback cb o') w
  = {| completion := Normal tt; after := w; effects := [InvokeStream cb o'] |}.
Proof.
  intros Hopen Hfinal. cbv zeta.
  assert (Hstrict : strictly_true final = false).
  { destruct final as [ | |[|]| | | | | ]; try reflexivity; discriminate Hfinal. }
  open_record w. subst rs.
  unfold stream_send, try_catch, bind, this, tell, readyState_is. simpl.
  rewrite Hfinal, Hstrict. repeat split.
Qed.

Lemma stream_push_witness :
  let w := fst (run [Call_stream ArgAbsent (Some 7); Tick] open_server) in
  let o := {| mask := Some false; binary := None; fin := None |} in
  _readyState w = OPEN /\ truthy DUndefined = false /\
  stream_send o 7 (DString "part") DUndefined w
  = {| completion := Normal tt;
       after := set_pendingTicks
                  [Task_streamCallback 7
                     {| mask := Some false; binary := None; fin := Some false |}] w;
       effects := [ToSender (Sender_send (DString "part")
                     {| mask := Some false; binary := None; fin := Some false |}
                     None)] |}.
Proof.
  cbv zeta. split; [reflexivity|]. split; [reflexivity|].
  exact (proj1 (stream_push {| mask := Some false; binary := None; fin := None |}
                  7 (DString "part") DUndefined
                  (fst (run [Call_stream ArgAbsent (Some 7); Tick] open_server))
                  eq_refl eq_refl)).
Defined.

(** ** What a release can throw *)

Lemma run_deferred_open_normal (d : Deferred) (w : WebSocket) :
  _readyState w = OPEN -> completion (run_deferred d w) = Normal tt.
Proof.
  intros Hopen. open_record w. subst rs.
  destruct d as [data [o|] cb|[o|] cb]; unfold run_deferred, send, stream; simpl;
    try destruct (truthy data); simpl; destruct qu; try reflexivity;
    destruct data; reflexivity.
Qed.

Lemma for_each_open_normal (q : list Deferred) (w : WebSocket) :
  _readyState w = OPEN -> completion (for_each q w) = Normal tt.
Proof.
  revert w. induction q as [|d q IH]; intros w Hopen; [reflexivity|].
  simpl. unfold bind. rewrite (run_deferred_open_normal d w Hopen). simpl.
  apply IH. rewrite (run_deferred_readyState d w). exact Hopen.
Qed.

Lemma executeQueueSends_open_normal (w : WebSocket) :
  _readyState w = OPEN -> completion (executeQueueSends w) = Normal tt.
Proof.
  intros Hopen. unfold executeQueueSends, bind at 1. simpl.
  destruct (_queue w) as [q|]; [|reflexivity].
  unfold bind, assign. simpl.
  rewrite (for_each_open_normal q (set_queue None w)); [reflexivity|].
  destruct w; exact Hopen.
Qed.

(** X13.  The function a stream hands to its callback never throws: on a
    session that is not Open it sends nothing, leaves the queue and the
    schedule alone and calls the callback with 'not opened'; on an open
    session it completes normally, also when it releases the queue. *)
Theorem stream_send_never_throws (o : Options) (cb : Callback)
    (data final : JsData) (w : WebSocket) :
  completion (stream_send o cb data final w) = Normal tt /\
  (_readyState w <> OPEN ->
   stream_send o cb data final w
   = {| completion := Normal tt; after := w;
        effects := [Invoke cb (Some not_opened)] |}).
Proof.
  split.
  - destruct (readyState_is OPEN w) eqn:Hrs.
    + pose proof (executeQueueSends_open_normal w
                    (proj1 (readyState_is_true OPEN w) Hrs)) as Hrelease.
      unfold stream_send, try_catch, bind, this, tell.
      cbn -[executeQueueSends]. rewrite Hrs. cbn -[executeQueueSends].
      destruct (truthy final); cbn -[executeQueueSends];
        [rewrite Hrelease|]; reflexivity.
    + unfold stream_send, try_catch, bind, this, tell.
      cbn -[executeQueueSends]. rewrite Hrs. reflexivity.
  - intros Hw. open_record w. destruct rs; try (now elim Hw); reflexivity.
Qed.

Lemma stream_send_never_throws_witness :
  let w := fst (run [Call_stream ArgAbsent (Some 7); Tick;
                     Call_close (DNumber 1000) (DString "")] open_server) in
  _readyState w <> OPEN /\
  stream_send {| mask := Some false; binary := None; fin := None |} 7
    (DString "late") (DBool true) w
  = {| completion := Normal tt; after := w;
       effects := [Invoke 7 (Some not_opened)] |}.
Proof.
  cbv zeta. split; [discriminate|].
  apply (proj2 (stream_send_never_throws
    {| mask := Some false; binary := None; fin := None |} 7
    (DString "late") (DBool true)
    (fst (run [Call_stream ArgAbsent (Some 7); Tick;
               Call_close (DNumber 1000) (DString "")] open_server)))).
  discriminate.
Defined.

Lemma for_each_when_not_open (q : list Deferred) (w : WebSocket) :
  _readyState w <> OPEN ->
  for_each q w
  = {| completion := if forallb has_callback q then Normal tt
                     else Throw not_opened;
       after := w; effects := failed_callbacks q |}.
Proof.
  intros Hw. induction q as [|d q IH]; [reflexivity|].
  assert (Hone : run_deferred d w
    = match callback_of d with
      | Some f => {| completion := Normal tt; after := w;
                     effects := [Invoke f (Some not_opened)] |}
      | None => {| completion := Throw not_opened; after := w; effects := [] |}
      end).
  { open_record w.
    destruct d as [data [o|] [f|]|[o|] f], rs;
      try (now elim Hw); reflexivity. }
  change (for_each (d :: q) w) with (bind (run_deferred d) (fun _ => for_each q) w).
  cbn [forallb failed_callbacks].
  destruct (callback_of d) as [f|] eqn:Hcb.
  - assert (Hd : has_callback d = true)
      by (unfold has_callback; rewrite Hcb; reflexivity).
    rewrite Hd, (bind_normal _ _ _ _ _ _ Hone), IH. reflexivity.
  - assert (Hd : has_callback d = false)
      by (unfold has_callback; rewrite Hcb; reflexivity).
    rewrite Hd. unfold bind. rewrite Hone. reflexivity.
Qed.

(** X14.  A release that finds the session no longer Open removes the
    queue and fails the deferred calls in order through their callbacks --
    until it meets a send that was given none: that one throws 'not opened'
    out of the release, and the entries behind it are dropped without
    their callbacks being called. *)
Theorem release_when_not_open (q : list Deferred) (w : WebSocket) :
  _readyState w <> OPEN ->
  _queue w = Some q ->
  executeQueueSends w
  = {| completion := if forallb has_callback q then Normal tt
                     else Throw not_opened;
       after := set_queue None w;
       effects := failed_callbacks q |}.
Proof.
  intros Hw Hq.
  assert (Hw' : _readyState (set_queue None w) <> OPEN) by (destruct w; exact Hw).
  pose proof (for_each_when_not_open q (set_queue None w) Hw') as Hloop.
  unfold executeQueueSends, bind at 1. simpl. rewrite Hq.
  unfold bind, assign. simpl. rewrite Hloop. simpl.
  destruct (forallb has_callback q); reflexivity.
Qed.

Lemma release_when_not_open_witness :
  let w := fst (run [Call_send (DReadStream 0) ArgAbsent None;
                     Call_send (DString "A") ArgAbsent (Some 1);
                     Call_send (DString "B") ArgAbsent None;
                     Call_send (DString "C") ArgAbsent (Some 3);
                     Call_close (DNumber 1000) (DString "")] open_server) in
  _readyState w <> OPEN /\
  _queue w = Some [Deferred_send (DString "A") None (Some 1);
                   Deferred_send (DString "B") None None;
                   Deferred_send (DString "C") None (Some 3)] /\
  executeQueueSends w
  = {| completion := Throw not_opened; after := set_queue None w;
       effects := [Invoke 1 (Some not_opened)] |}.
Proof.
  cbv zeta. split; [discriminate|]. split; [reflexivity|].
  apply (release_when_not_open
    [Deferred_send (DString "A") None (Some 1);
     Deferred_send (DString "B") None None;
     Deferred_send (DString "C") None (Some 3)]
    (fst (run [Call_send (DReadStream 0) ArgAbsent None;
               Call_send (DString "A") ArgAbsent (Some 1);
               Call_send (DString "B") ArgAbsent None;
               Call_send (DString "C") ArgAbsent (Some 3);
               Call_close (DNumber 1000) (DString "")] open_server)));
    [discriminate|reflexivity].
Defined.

(** ** A ReadStream sent from start to end *)

Lemma bind_ret_r (m : M unit) (w : WebSocket) :
  bind m (fun _ => ret tt) w = m w.
Proof.
  unfold bind, ret. destruct (m w) as [[[]|e] a es]; simpl;
    rewrite ?app_nil_r; reflexivity.
Qed.

Lemma run_app (a b : list Input) (w : WebSocket) :
  run (a ++ b) w
  = (fst (run b (fst (run a w))), snd (run a w) ++ snd (run b (fst (run a w)))).
Proof.
  revert w. induction a as [|i a IH]; intros w.
  - cbn [app run fst snd]. destruct (run b w); reflexivity.
  - cbn [app run]. rewrite IH.
    destruct (run a (after (step i w))) as [w1 e1]. cbn [fst snd].
    rewrite app_assoc. reflexivity.
Qed.

Lemma dispatch_others (ls rest : list StreamListener) (id : nat)
    (listener : StreamListener -> M unit) (w : WebSocket) :
  (forall l, In l ls -> on_stream l <> id) ->
  dispatch (ls ++ rest) id listener w = dispatch rest id listener w.
Proof.
  intros Hls. induction ls as [|l ls IH]; [reflexivity|].
  simpl. assert (Hl : Nat.eqb (on_stream l) id = false).
  { apply Nat.eqb_neq. apply Hls. left. reflexivity. }
  rewrite Hl, bind_ret_l. apply IH. intros l' Hin. apply Hls. right. exact Hin.
Qed.

Lemma dispatch_one (ls : list StreamListener) (l : StreamListener)
    (listener : StreamListener -> M unit) (w : WebSocket) :
  (forall l', In l' ls -> on_stream l' <> on_stream l) ->
  dispatch (ls ++ [l]) (on_stream l) listener w = listener l w.
Proof.
  intros Hls. rewrite (dispatch_others ls [l] _ listener w Hls).
  simpl. rewrite Nat.eqb_refl. apply bind_ret_r.
Qed.

Lemma step_of_listeners (i : Input) (w : WebSocket) (r : Outcome unit) :
  listeners i w w = r -> step i w = r.
Proof.
  intros <-. destruct (step_listeners i w) as [Hc [Ha He]].
  destruct (step i w), (listeners i w w); simpl in *; subst; reflexivity.
Qed.

Section Streamed.

Variable w : WebSocket.
Variable id : nat.
Variable o : Options.
Variable cb : option Callback.

Hypothesis w_open : _readyState w = OPEN.
Hypothesis id_fresh : forall l, In l (streamListeners w) -> on_stream l <> id.

Lemma chunk_while_sending (q : list Deferred) (ticks : list Task)
    (chunk : JsData) :
  step (Stream_data id chunk) (sending w id o cb q ticks)
  = {| completion := Normal tt; after := sending w id o cb q ticks;
       effects := [ToSender (Sender_send chunk (set_fin false o) None)] |}.
Proof.
  destruct (step_listeners (Stream_data id chunk) (sending w id o cb q ticks))
    as [Hc [Ha He]].
  assert (Hl : listeners (Stream_data id chunk) (sending w id o cb q ticks) (sending w id o cb q ticks)
    = {| completion := Normal tt; after := sending w id o cb q ticks;
         effects := [ToSender (Sender_send chunk (set_fin false o) None)] |}).
  { unfold listeners, sending. cbn [streamListeners set_pendingTicks set_streamListeners].
    rewrite (dispatch_one (streamListeners w)
               {| on_stream := id; with_options := o;
                  with_cb := Some (AfterSend cb) |}); [|exact id_fresh].
    destruct w; simpl in *; subst; reflexivity. }
  rewrite Hl in Hc, Ha, He.
  destruct (step (Stream_data id chunk) (sending w id o cb q ticks)); simpl in *;
    subst; reflexivity.
Qed.

Lemma send_while_sending (q : list Deferred) (ticks : list Task)
    (s : JsData * option Options * option Callback) :
  step (call_send s) (sending w id o cb q ticks)
  = {| completion := Normal tt; after := sending w id o cb (q ++ [deferred_of s]) ticks;
       effects := [] |}.
Proof.
  destruct s as [[data options] c]. unfold sending.
  destruct w; simpl in *; subst.
  unfold step, listeners, call_send, send, deferred_of, or_empty_string.
  destruct options; simpl; destruct (truthy data); reflexivity.
Qed.

Lemma meanwhile_run (xs : list Meanwhile) (q : list Deferred)
    (ticks : list Task) :
  run (map (meanwhile_input id) xs) (sending w id o cb q ticks)
  = (sending w id o cb (q ++ map deferred_of (sends_of xs)) ticks,
     map (fun c => ToSender (Sender_send c (set_fin false o) None))
       (chunks_of xs)).
Proof.
  revert q. induction xs as [|[chunk|s] xs IH]; intros q.
  - simpl. rewrite app_nil_r. reflexivity.
  - cbn [map meanwhile_input run]. rewrite chunk_while_sending.
    cbn [after effects]. rewrite IH. reflexivity.
  - cbn [map meanwhile_input run]. rewrite send_while_sending.
    cbn [after effects]. rewrite IH.
    cbn [sends_of chunks_of flat_map app map]. rewrite <- app_assoc.
    reflexivity.
Qed.

Lemma end_while_sending (q : list Deferred) :
  step (Stream_end id) (sending w id o cb q [])
  = {| completion := Normal tt; after := sending w id o cb q [Task_executeQueueSends];
       effects := ToSender (Sender_send DNull (set_fin true o) None)
                  :: match cb with
                     | Some f => [Invoke f None]
                     | None => []
                     end |}.
Proof.
  destruct (step_listeners (Stream_end id) (sending w id o cb q [])) as [Hc [Ha He]].
  assert (Hl : listeners (Stream_end id) (sending w id o cb q []) (sending w id o cb q [])
    = {| completion := Normal tt; after := sending w id o cb q [Task_executeQueueSends];
         effects := ToSender (Sender_send DNull (set_fin true o) None)
                    :: match cb with
                       | Some f => [Invoke f None]
                       | None => []
                       end |}).
  { unfold listeners, sending. cbn [streamListeners set_pendingTicks set_streamListeners].
    rewrite (dispatch_one (streamListeners w)
               {| on_stream := id; with_options := o;
                  with_cb := Some (AfterSend cb) |}); [|exact id_fresh].
    destruct w; simpl in *; subst. destruct cb; reflexivity. }
  rewrite Hl in Hc, Ha, He.
  destruct (step (Stream_end id) (sending w id o cb q [])); simpl in *; subst; reflexivity.
Qed.

Lemma release_after_sending (q : list Deferred) :
  forallb plain q = true ->
  step Tick (sending w id o cb q [Task_executeQueueSends])
  = {| completion := Normal tt;
       after := set_queue None (sending w id o cb q []);
       effects := flat_map (replayed w) q |}.
Proof.
  intros Hplain.
  assert (Hrelease : executeQueueSends (sending w id o cb q [])
    = {| completion := Normal tt; after := set_queue None (sending w id o cb q []);
         effects := flat_map (replayed (sending w id o cb q [])) q |}).
  { apply executeQueueSends_plain; [|reflexivity|exact Hplain].
    unfold sending. destruct w; exact w_open. }
  apply step_of_listeners.
  change (listeners Tick (sending w id o cb q [Task_executeQueueSends])
            (sending w id o cb q [Task_executeQueueSends]))
    with (bind (assign (set_pendingTicks [])) (fun _ => executeQueueSends)
            (sending w id o cb q [Task_executeQueueSends])).
  rewrite (bind_normal (assign (set_pendingTicks [])) (fun _ => executeQueueSends)
             (sending w id o cb q [Task_executeQueueSends]) (sending w id o cb q []) tt [] eq_refl).
  rewrite Hrelease. reflexivity.
Qed.

End Streamed.

Lemma replayed_deferred_of (w : WebSocket)
    (s : JsData * option Options * option Callback) :
  not_ReadStream s = true ->
  plain (deferred_of s) = true /\
  replayed w (deferred_of s) = [ToSender (frame_of_send w s)].
Proof.
  destruct s as [[data options] c]. unfold not_ReadStream. intros Hs.
  destruct data as [ | |[|]|[|z|z]| |[|a x]|bs|n]; try discriminate Hs;
    split; reflexivity.
Qed.

Lemma replayed_sends (w : WebSocket)
    (l : list (JsData * option Options * option Callback)) :
  forallb not_ReadStream l = true ->
  forallb plain (map deferred_of l) = true /\
  flat_map (replayed w) (map deferred_of l)
  = map (fun s => ToSender (frame_of_send w s)) l.
Proof.
  induction l as [|s l IH]; intros Hl; [split; reflexivity|].
  simpl in Hl. apply andb_true_iff in Hl as [Hs Hl].
  destruct (replayed_deferred_of w s Hs) as [Hp Hr].
  destruct (IH Hl) as [Hps Hrs].
  cbn [map forallb flat_map]. rewrite Hp, Hps, Hr, Hrs. split; reflexivity.
Qed.

(** X15.  A ReadStream sent from start to end on an open session, with
    chunks arriving and further plain sends being called in any
    interleaving before the stream ends: the effects are, in this order,
    one frame with [fin = false] for every chunk, the final frame with an
    empty payload and [fin = true], the one call of the callback with no
    error, and -- on the next turn of the loop -- the frames of the sends
    that were called meanwhile, in the order of the calls.  The queue is
    gone afterwards. *)
Theorem streamed_send_in_order (w : WebSocket) (id : nat)
    (options : OptionsArg) (cb : option Callback) (xs : list Meanwhile) :
  _readyState w = OPEN ->
  _queue w = None ->
  pendingTicks w = [] ->
  (forall l, In l (streamListeners w) -> on_stream l <> id) ->
  forallb not_ReadStream (sends_of xs) = true ->
  let o := default_mask w
             (set_fin true (or_empty (fst (shift_arguments options cb)))) in
  let result :=
    run (Call_send (DReadStream id) options cb
           :: map (meanwhile_input id) xs ++ [Stream_end id; Tick]) w in
  snd result
  = map (fun c => ToSender (Sender_send c (set_fin false o) None)) (chunks_of xs)
    ++ ToSender (Sender_send DNull (set_fin true o) None)
    :: match snd (shift_arguments options cb) with
       | Some f => [Invoke f None]
       | None => []
       end
    ++ map (fun s => ToSender (frame_of_send w s)) (sends_of xs) /\
  _queue (fst result) = None /\
  _readyState (fst result) = OPEN.
Proof.
  intros Hopen Hq Hticks Hfresh Hsends. cbv zeta.
  set (o := default_mask w
              (set_fin true (or_empty (fst (shift_arguments options cb))))).
  set (cb' := snd (shift_arguments options cb)).
  assert (Hstart : step (Call_send (DReadStream id) options cb) w
    = {| completion := Normal tt; after := sending w id o cb' [] [];
         effects := [] |}).
  { apply step_of_listeners. unfold listeners.
    rewrite (send_ReadStream id options cb w Hopen Hq).
    unfold sending, o, cb'. destruct w; simpl in *; subst; reflexivity. }
  destruct (replayed_sends w (sends_of xs) Hsends) as [Hplain Hreplay].
  cbn [run]. rewrite Hstart. cbn [after effects].
  rewrite run_app.
  rewrite (meanwhile_run w id o cb' Hopen Hfresh xs [] []).
  cbn [fst snd app run].
  rewrite (end_while_sending w id o cb' Hopen Hfresh).
  cbn [after effects].
  rewrite (release_after_sending w id o cb' Hopen Hfresh _ Hplain).
  cbn [after effects fst snd]. rewrite Hreplay, app_nil_r.
  split; [|split].
  - destruct cb'; reflexivity.
  - reflexivity.
  - unfold sending. destruct w; exact Hopen.
Qed.

Lemma streamed_send_in_order_witness :
  let xs : list Meanwhile :=
    [inl (DString "hel"); inr (DString "X", None, None);
     inl (DString "lo"); inr (DNull, None, Some 5)] in
  _readyState open_server = OPEN /\
  forallb not_ReadStream (sends_of xs) = true /\
  snd (run (Call_send (DReadStream 0) ArgAbsent (Some 1)
              :: map (meanwhile_input 0) xs ++ [Stream_end 0; Tick]) open_server)
  = [ToSender (Sender_send (DString "hel")
       {| mask := Some false; binary := None; fin := Some false |} None);
     ToSender (Sender_send (DString "lo")
       {| mask := Some false; binary := None; fin := Some false |} None);
     ToSender (Sender_send DNull
       {| mask := Some false; binary := None; fin := Some true |} None);
     Invoke 1 None;
     ToSender (Sender_send (DString "X")
       {| mask := Some false; binary := None; fin := Some true |} None);
     ToSender (Sender_send (DString "")
       {| mask := Some false; binary := None; fin := Some true |} (Some 5))].
Proof.
  cbv zeta. split; [reflexivity|]. split; [reflexivity|].
  rewrite (proj1 (streamed_send_in_order open_server 0 ArgAbsent (Some 1)
    [inl (DString "hel"); inr (DString "X", None, None);
     inl (DString "lo"); inr (DNull, None, Some 5)]
    eq_refl eq_refl eq_refl (fun l H => match H with end) eq_refl)).
  reflexivity.
Defined.

(** ** The 'close' event and what it carries *)

(** X16.  [close(code, data)] on an open session, followed by the end of
    the transport: the close frame, the end of the socket, and then exactly
    one 'close' event, which carries the code and the reason that were
    passed -- with 1000 in place of a falsy code (0 included) and the empty
    string in place of a falsy reason; a second notification of the socket
    emits nothing.  A close frame of the peer takes the same course.  When
    the transport ends without either, the event carries what the session
    has recorded, 1000 and the empty string on a fresh session. *)
Theorem close_event_payload (code data : JsData) (w : WebSocket) :
  wired w = true ->
  let ended :=
    (set_socket false (set_close code data (set_readyState CLOSED w)),
     ToSender (Sender_close code data (negb (_isServer w)))
     :: (if _socket w then [SocketEnd] else [])
     ++ [Emit (Ev_close (Some (js_or code (DNumber 1000),
                               js_or data (DString ""))))]) in
  (_readyState w = OPEN ->
   run [Call_close code data; Socket_end; Socket_close] w = ended /\
   run [Receiver_close code data; Socket_close; Socket_end] w = ended) /\
  (_readyState w <> CLOSED ->
   run [Socket_end; Socket_close] w
   = (set_readyState CLOSED w,
      [Emit (Ev_close (Some (js_or (_closeCode w) (DNumber 1000),
                             js_or (_closeMessage w) (DString ""))))])) /\
  (_readyState w = CLOSED -> run [Socket_end; Socket_close] w = (w, [])).
Proof.
  intros Hwired. open_record w. subst wir. cbv zeta.
  split; [|split].
  - intros ->. destruct sock; split; reflexivity.
  - intros Hrs. destruct rs; try (now elim Hrs); reflexivity.
  - intros ->. reflexivity.
Qed.

Lemma close_event_payload_witness :
  wired open_server = true /\ _readyState open_server = OPEN /\
  snd (run [Call_close (DNumber 0) DUndefined; Socket_end; Socket_close]
         open_server)
  = [ToSender (Sender_close (DNumber 0) DUndefined false); SocketEnd;
     Emit (Ev_close (Some (DNumber 1000, DString "")))].
Proof.
  split; [reflexivity|]. split; [reflexivity|].
  rewrite (proj1 (proj1 (close_event_payload (DNumber 0) DUndefined
                           open_server eq_refl) eq_refl)).
  reflexivity.
Defined.

(** X18.  A client that is closed or terminated while Connecting: when the
    upgrade response comes, whatever its accept header, the session emits
    'close' without arguments and ends the socket it is handed; it stays
    Closed, 'open' is not emitted and the code and reason given to
    [close] are not recorded. *)
Theorem closed_before_upgrade (code data : JsData) (serverKey : option string)
    (upgradeHead : JsData) (w : WebSocket) :
  _isServer w = false ->
  awaitingUpgrade w = true ->
  _readyState w = CONNECTING ->
  run [Call_close code data; Request_upgrade serverKey upgradeHead] w
  = (set_awaitingUpgrade false (set_readyState CLOSED w),
     [Emit (Ev_close None); SocketEnd]) /\
  (_socket w = false ->
   run [Call_terminate; Request_upgrade serverKey upgradeHead] w
   = (set_awaitingUpgrade false (set_readyState CLOSED w),
      [Emit (Ev_close None); SocketEnd])).
Proof.
  intros Hsrv Haw Hrs. open_record w. subst srv awaiting rs.
  split; [|intros ->]; destruct serverKey; reflexivity.
Qed.

Lemma closed_before_upgrade_witness :
  match new_client (Some "example"%string) 13 0 with
  | Normal w =>
      run [Call_close (DNumber 1001) (DString "bye");
           Request_upgrade (Some (expectedServerKey w)) DUndefined] w
      = (set_awaitingUpgrade false (set_readyState CLOSED w),
         [Emit (Ev_close None); SocketEnd])
  | Throw _ => False
  end.
Proof.
  destruct (new_client (Some "example"%string) 13 0) as [w|e] eqn:Hnew;
    [|vm_compute in Hnew; discriminate Hnew].
  unfold new_client in Hnew. cbn [String.eqb Ascii.eqb Bool.eqb N.eqb negb andb] in Hnew.
  injection Hnew as <-.
  apply (closed_before_upgrade (DNumber 1001) (DString "bye")); reflexivity.
Defined.

(** ** Errors and messages of the Receiver *)

(** X19.  An error of the Receiver.  Without a close code it is emitted as
    'error' and nothing else happens.  With a close code the session first
    closes with that code and an empty reason: when Open, the close frame
    and the end of the socket come before the 'error' event; when Closing
    or Connecting only the event follows; and when the session is already
    Closed the close throws 'not opened' out of the listener, so that the
    error is not emitted at all. *)
Theorem receiver_error_by_state (reason errorCode : JsData) (w : WebSocket) :
  wired w = true ->
  step (Receiver_error reason errorCode) w
  = if negb (defined errorCode) then
      {| completion := Normal tt; after := set_queue None w;
         effects := [Emit (Ev_error (Raw reason) errorCode)] |}
    else
      match _readyState w with
      | OPEN =>
          {| completion := Normal tt;
             after := set_queue None (set_socket false
                        (set_close errorCode (DString "")
                           (set_readyState CLOSING w)));
             effects :=
               ToSender (Sender_close errorCode (DString "") (negb (_isServer w)))
               :: (if _socket w then [SocketEnd] else [])
               ++ [Emit (Ev_error (Raw reason) errorCode)] |}
      | CLOSING =>
          {| completion := Normal tt; after := set_queue None w;
             effects := [Emit (Ev_error (Raw reason) errorCode)] |}
      | CONNECTING =>
          {| completion := Normal tt;
             after := set_queue None (set_readyState CLOSED w);
             effects := [Emit (Ev_error (Raw reason) errorCode)] |}
      | CLOSED =>
          {| completion := Throw not_opened; after := w; effects := [] |}
      end.
Proof.
  intros Hwired. open_record w. subst wir.
  unfold step, listeners, receiver_on_error.
  destruct (defined errorCode), rs, sock; reflexivity.
Qed.

Lemma receiver_error_by_state_witness :
  let w := fst (run [Socket_end] open_server) in
  wired w = true /\ _readyState w = CLOSED /\
  step (Receiver_error (DString "bad frame") (DNumber 1002)) w
  = {| completion := Throw not_opened; after := w; effects := [] |} /\
  effects (step (Receiver_error (DString "bad frame") (DNumber 1002)) open_server)
  = [ToSender (Sender_close (DNumber 1002) (DString "") false); SocketEnd;
     Emit (Ev_error (Raw (DString "bad frame")) (DNumber 1002))].
Proof.
  cbv zeta. split; [reflexivity|]. split; [reflexivity|]. split.
  - exact (receiver_error_by_state (DString "bad frame") (DNumber 1002)
             (fst (run [Socket_end] open_server)) eq_refl).
  - rewrite (receiver_error_by_state (DString "bad frame") (DNumber 1002)
               open_server eq_refl).
    reflexivity.
Defined.

(** X20.  What the Receiver's data events become, in whatever ready state
    the session is (Closing and Closed included): a text message is emitted
    as 'message' with the flags as they came ([{}] when there were none), a
    binary message as 'message' with [binary = true]; neither touches the
    session or the Sender.  A pong of the Receiver has no listener: nothing
    is emitted for it. *)
Theorem receiver_messages (data : JsData) (flags : option Flags)
    (w : WebSocket) :
  wired w = true ->
  step (Receiver_text data flags) w
  = {| completion := Normal tt; after := w;
       effects := [Emit (Ev_message data (flags_or_empty flags))] |} /\
  step (Receiver_binary data flags) w
  = {| completion := Normal tt; after := w;
       effects := [Emit (Ev_message data {| flags_binary := Some true |})] |} /\
  step (Receiver_pong data flags) w
  = {| completion := Normal tt; after := w; effects := [] |}.
Proof.
  intros Hwired. open_record w. subst wir. repeat split.
Qed.

Lemma receiver_messages_witness :
  let w := fst (run [Socket_end] open_server) in
  wired w = true /\ _readyState w = CLOSED /\
  effects (step (Receiver_text (DString "late") None) w)
  = [Emit (Ev_message (DString "late") {| flags_binary := None |})].
Proof.
  cbv zeta. split; [reflexivity|]. split; [reflexivity|].
  rewrite (proj1 (receiver_messages (DString "late") None
                    (fst (run [Socket_end] open_server)) eq_refl)).
  reflexivity.
Defined.

(** ** 'open' and 'close' are emitted at most once *)

Lemma count_app (p : Effect -> bool) (a b : list Effect) :
  count p (a ++ b) = count p a + count p b.
Proof. unfold count. rewrite filter_app, length_app. reflexivity. Qed.

Lemma inert_bind {A B} (m : M A) (k : A -> M B) :
  inert m -> (forall a, inert (k a)) -> inert (bind m k).
Proof.
  intros Hm Hk w. unfold bind.
  destruct (Hm w) as [H1 [H2 [H3 [H4 H5]]]].
  destruct (completion (m w)) as [a|e]; simpl; [|auto].
  destruct (Hk a (after (m w))) as [K1 [K2 [K3 [K4 K5]]]].
  rewrite !count_app, H4, H5, K4, K5, K1, K2, K3. auto.
Qed.

Lemma inert_try_catch (body : M unit) (handler : JsError -> M unit) :
  inert body -> (forall e, inert (handler e)) -> inert (try_catch body handler).
Proof.
  intros Hb Hh w. unfold try_catch.
  destruct (Hb w) as [H1 [H2 [H3 [H4 H5]]]].
  destruct (completion (body w)) as [a|e]; simpl; [auto|].
  destruct (Hh e (after (body w))) as [K1 [K2 [K3 [K4 K5]]]].
  rewrite !count_app, H4, H5, K4, K5, K1, K2, K3. auto.
Qed.

Ltac inert_by_cases := repeat split; reflexivity.

Lemma inert_send (data : JsData) (options : OptionsArg) (cb : option Callback) :
  inert (send data options cb).
Proof.
  intros w. open_record w. unfold send.
  destruct options as [|o|g]; simpl;
    destruct rs; try (destruct cb; inert_by_cases);
    destruct (truthy data); simpl; destruct qu; try inert_by_cases;
    destruct data; inert_by_cases.
Qed.

Lemma inert_stream (options : OptionsArg) (cb : option Callback) :
  inert (stream options cb).
Proof.
  intros w. open_record w. unfold stream.
  destruct options as [|o|g]; simpl;
    try destruct cb; try inert_by_cases; destruct rs, qu; inert_by_cases.
Qed.

Lemma inert_for_each (q : list Deferred) : inert (for_each q).
Proof.
  induction q as [|d q IH]; simpl.
  - intros w. inert_by_cases.
  - apply inert_bind; [|intros _; exact IH].
    destruct d; [apply inert_send|apply inert_stream].
Qed.

Lemma inert_executeQueueSends : inert executeQueueSends.
Proof.
  unfold executeQueueSends. apply inert_bind; [intros w; inert_by_cases|].
  intros w0. destruct (_queue w0) as [q|]; [|intros w; inert_by_cases].
  apply inert_bind; [|intros _; apply inert_for_each].
  intros w. destruct w. inert_by_cases.
Qed.

Lemma inert_stream_send (options : Options) (cb : Callback)
    (data final : JsData) :
  inert (stream_send options cb data final).
Proof.
  unfold stream_send. apply inert_try_catch; [|intros e w; inert_by_cases].
  apply inert_bind; [intros w; inert_by_cases|]. intros w0.
  destruct (negb (readyState_is OPEN w0)); [intros w; inert_by_cases|].
  apply inert_bind; [intros w; inert_by_cases|]. intros _.
  destruct (negb (truthy final)); [|apply inert_executeQueueSends].
  intros w. destruct w. inert_by_cases.
Qed.

Lemma inert_stream_listeners (l : StreamListener) :
  (forall data, inert (stream_on_data l data)) /\ inert (stream_on_end l).
Proof.
  split; [intros data|]; intros w; open_record w;
    destruct l as [id o [[[f|]]|]], rs; inert_by_cases.
Qed.

Lemma inert_dispatch (ls : list StreamListener) (id : nat)
    (listener : StreamListener -> M unit) :
  (forall l, inert (listener l)) -> inert (dispatch ls id listener).
Proof.
  intros Hl. induction ls as [|l ls IH]; simpl.
  - intros w. inert_by_cases.
  - apply inert_bind; [|intros _; exact IH].
    destruct (Nat.eqb (on_stream l) id); [apply Hl|intros w; inert_by_cases].
Qed.

(** An inert entry uses up nothing. *)
Lemma inert_budget {A} (m : M A) (w : WebSocket) :
  inert m ->
  count is_open_event (effects (m w)) + opens_left (after (m w)) <= opens_left w /\
  count is_close_event (effects (m w)) + closes_left (after (m w)) <= closes_left w /\
  (awaitingUpgrade (after (m w)) = true ->
   awaitingUpgrade w = true /\ wired (after (m w)) = wired w).
Proof.
  intros Hm. destruct (Hm w) as [H1 [H2 [H3 [H4 H5]]]].
  unfold opens_left, closes_left, readyState_is.
  rewrite H1, H2, H3, H4, H5. repeat split; auto.
Qed.

Lemma listeners_budget (i : Input) (w : WebSocket) :
  handshake_in_order w ->
  count is_open_event (effects (listeners i w w))
    + opens_left (after (listeners i w w)) <= opens_left w /\
  count is_close_event (effects (listeners i w w))
    + closes_left (after (listeners i w w)) <= closes_left w /\
  (awaitingUpgrade (after (listeners i w w)) = true ->
   wired (after (listeners i w w)) = false).
Proof.
  intros [Hticks Haw].
  assert (Hinert : forall m : M unit, inert m ->
    count is_open_event (effects (m w)) + opens_left (after (m w)) <= opens_left w /\
    count is_close_event (effects (m w)) + closes_left (after (m w)) <= closes_left w /\
    (awaitingUpgrade (after (m w)) = true -> wired (after (m w)) = false)).
  { intros m Hm. destruct (inert_budget m w Hm) as [Ho [Hc Hk]].
    split; [exact Ho|]. split; [exact Hc|].
    intros H. destruct (Hk H) as [Ha ->]. apply Haw. exact Ha. }
  assert (Hdirect : forall r : Outcome unit,
    awaitingUpgrade (after r) = awaitingUpgrade w ->
    wired (after r) = wired w ->
    count is_open_event (effects r) = 0 ->
    count is_close_event (effects r) + closes_left (after r) <= closes_left w ->
    count is_open_event (effects r) + opens_left (after r) <= opens_left w /\
    count is_close_event (effects r) + closes_left (after r) <= closes_left w /\
    (awaitingUpgrade (after r) = true -> wired (after r) = false)).
  { intros r Ha Hw Ho Hc. unfold opens_left. rewrite Ha, Hw, Ho.
    split; [apply le_n|]. split; [exact Hc|]. intros H. apply Haw. exact H. }
  destruct i; unfold listeners.
  - (* close *)
    apply Hdirect; open_record w; destruct rs, sock, awaiting, wir;
      try reflexivity; cbv; lia.
  - apply Hinert. intros w'. open_record w'. destruct rs; inert_by_cases.
  - apply Hinert. intros w'. open_record w'. destruct rs; inert_by_cases.
  - apply Hinert, inert_send.
  - apply Hinert, inert_stream.
  - (* terminate *)
    apply Hdirect; open_record w; destruct rs, sock, awaiting, wir;
      try reflexivity; cbv; lia.
  - apply Hinert, inert_stream_send.
  - unfold no_upgrade_pending in Hticks.
    destruct (pendingTicks w) as [|[head| |cb o] rest].
    + apply Hinert. intros w'. inert_by_cases.
    + simpl in Hticks. discriminate Hticks.
    + apply Hinert. apply inert_bind; [|intros _; apply inert_executeQueueSends].
      intros w'. destruct w'. inert_by_cases.
    + apply Hinert. intros w'. destruct w'. inert_by_cases.
  - destruct (negb (_isServer w)); apply Hinert; intros w'; destruct w';
      inert_by_cases.
  - (* the upgrade response *)
    open_record w. destruct srv, awaiting;
      try (apply (Hinert (ret tt)); intros w'; inert_by_cases).
    destruct (Haw eq_refl) as [-> _].
    unfold request_on_upgrade.
    destruct serverKey as [k|], rs;
      unfold bind, assign, this, readyState_is; simpl;
      try destruct (String.eqb k key); simpl;
      try destruct (non_empty upgradeHead);
      cbv; repeat split; try lia; try discriminate.
  - (* the socket ends *)
    apply Hdirect; open_record w; destruct wir, rs, awaiting;
      try reflexivity; try (cbv; lia);
      destruct (Haw eq_refl) as [Hw _]; discriminate Hw.
  - apply Hdirect; open_record w; destruct wir, rs, awaiting;
      try reflexivity; try (cbv; lia);
      destruct (Haw eq_refl) as [Hw _]; discriminate Hw.
  - destruct (wired w); apply Hinert; intros w'; destruct w'; inert_by_cases.
  - destruct (wired w); apply Hinert; intros w'; destruct w'; inert_by_cases.
  - destruct (wired w); apply Hinert; intros w'; open_record w';
      destruct rs; inert_by_cases.
  - apply Hinert. intros w'. inert_by_cases.
  - (* a close frame arrives *)
    apply Hdirect; open_record w; destruct wir, rs, sock, awaiting;
      try reflexivity; cbv; lia.
  - (* the Receiver fails *)
    unfold receiver_on_error.
    apply Hdirect; open_record w;
      destruct wir, (defined errorCode), rs, sock, awaiting;
      try reflexivity; cbv; lia.
  - destruct (wired w); apply Hinert; intros w'; destruct w'; inert_by_cases.
  - apply Hinert, inert_dispatch. intros l. apply inert_stream_listeners.
  - apply Hinert, inert_dispatch. intros l. apply inert_stream_listeners.
Qed.

Lemma handshake_in_order_step (i : Input) (w : WebSocket) :
  handshake_in_order w -> handshake_in_order (after (step i w)).
Proof.
  intros Hw. pose proof Hw as [Hticks Haw].
  assert (Hup : upgrade_in_order w).
  { split; [exact Hticks|]. intros H. apply Haw. exact H. }
  destruct (step_upgrade_order i w Hup) as [Hticks' Haw'].
  destruct (listeners_budget i w Hw) as [_ [_ Hwired]].
  destruct (step_listeners i w) as [_ [Hafter _]]. rewrite <- Hafter in Hwired.
  split; [auto|]. intros H. split; [auto|].
  destruct (Haw' H) as [Ha Hb]. apply Hb. apply Haw. exact Ha.
Qed.

Lemma run_budget (inputs : list Input) (w : WebSocket) :
  handshake_in_order w ->
  count is_open_event (snd (run inputs w)) <= opens_left w /\
  count is_close_event (snd (run inputs w)) <= closes_left w.
Proof.
  revert w. induction inputs as [|i rest IH]; intros w Hw.
  - cbn. split; apply Nat.le_0_l.
  - cbn [run].
    destruct (IH _ (handshake_in_order_step i w Hw)) as [Ho Hc].
    destruct (listeners_budget i w Hw) as [Ho1 [Hc1 _]].
    destruct (step_listeners i w) as [_ [Hafter Heffects]].
    rewrite <- Hafter, <- Heffects in Ho1, Hc1.
    destruct (run rest (after (step i w))) as [w' es]. cbn [snd] in *.
    rewrite !count_app. split; lia.
Qed.

(** X17.  In every run of a client session, and of a server-side session
    whose scheduled [upgrade] is the first thing to run, 'open' is emitted
    at most once and 'close' is emitted at most once, whatever the
    application, the socket, the Receiver and the streams do.  From any
    session whose handshake is in order, the events still to come are
    bounded in the same way; a session that is Closed after its handshake
    emits no further 'close'. *)
Theorem open_close_at_most_once (inputs : list Input) :
  (forall host version now w,
     new_client host version now = Normal w ->
     count is_open_event (snd (run inputs w)) <= 1 /\
     count is_close_event (snd (run inputs w)) <= 1) /\
  (forall upgradeHead,
     count is_open_event (snd (run (Tick :: inputs) (new_server upgradeHead))) = 1 /\
     count is_close_event (snd (run (Tick :: inputs) (new_server upgradeHead))) <= 1) /\
  (forall w,
     handshake_in_order w ->
     count is_open_event (snd (run inputs w)) <= opens_left w /\
     count is_close_event (snd (run inputs w)) <= closes_left w /\
     (awaitingUpgrade w = false -> _readyState w = CLOSED ->
      count is_close_event (snd (run inputs w)) = 0)).
Proof.
  split; [|split].
  - intros host version now w Hnew.
    assert (Hw : handshake_in_order w /\ awaitingUpgrade w = true).
    { unfold new_client in Hnew.
      destruct host as [h|]; [|discriminate Hnew].
      destruct (String.eqb h ""); [discriminate Hnew|].
      destruct (negb (version =? 8)%N && negb (version =? 13)%N);
        [discriminate Hnew|].
      injection Hnew as <-. repeat split. left. reflexivity. }
    destruct Hw as [Hw Haw]. destruct (run_budget inputs w Hw) as [Ho Hc].
    unfold opens_left, closes_left in Ho, Hc. rewrite Haw in Ho, Hc. auto.
  - intros upgradeHead.
    assert (Hfirst : exists es,
      step Tick (new_server upgradeHead)
      = {| completion := Normal tt;
           after := set_pendingTicks [] (set_readyState OPEN (set_wired true
                      (set_socket true (new_server upgradeHead))));
           effects := [SocketSetTimeout 0; SocketSetNoDelay true; Emit Ev_open] ++ es |}
      /\ count is_open_event es = 0 /\ count is_close_event es = 0).
    { destruct (non_empty upgradeHead) eqn:Hne.
      - exists [ReceiverAdd upgradeHead]. split; [|split; reflexivity].
        unfold step, listeners, run_task, upgrade, bind, this, assign, tell, emit.
        simpl. rewrite Hne. reflexivity.
      - exists []. split; [|split; reflexivity].
        unfold step, listeners, run_task, upgrade, bind, this, assign, tell, emit.
        simpl. rewrite Hne. reflexivity. }
    destruct Hfirst as [es [Hstep [Hes_o Hes_c]]].
    cbn [run]. rewrite Hstep. cbn [after effects].
    assert (Hw : handshake_in_order
              (set_pendingTicks [] (set_readyState OPEN (set_wired true
                 (set_socket true (new_server upgradeHead)))))).
    { split; [reflexivity|]. intros H. discriminate H. }
    destruct (run_budget inputs _ Hw) as [Ho Hc].
    destruct (run inputs _) as [w' es']. cbn [snd] in *.
    rewrite !count_app, Hes_o, Hes_c.
    cbn in Ho, Hc |- *. split; lia.
  - intros w Hw. destruct (run_budget inputs w Hw) as [Ho Hc].
    split; [exact Ho|]. split; [exact Hc|].
    intros Haw Hrs. unfold closes_left, readyState_is in Hc.
    rewrite Haw, Hrs in Hc. rewrite andb_false_r in Hc. lia.
Qed.

Lemma open_close_at_most_once_witness :
  let w := fst (run [Call_close (DNumber 1000) (DString ""); Socket_end] open_server) in
  handshake_in_order w /\ awaitingUpgrade w = false /\ _readyState w = CLOSED /\
  count is_close_event
    (snd (run [Socket_close; Socket_end; Receiver_close DUndefined DUndefined; Tick] w))
  = 0.
Proof.
  cbv zeta.
  assert (Hw : handshake_in_order
    (fst (run [Call_close (DNumber 1000) (DString ""); Socket_end] open_server))).
  { split; [reflexivity|]. intros H. discriminate H. }
  split; [exact Hw|]. split; [reflexivity|]. split; [reflexivity|].
  exact (proj2 (proj2 (proj2 (proj2
    (open_close_at_most_once
       [Socket_close; Socket_end; Receiver_close DUndefined DUndefined; Tick]))
    _ Hw)) eq_refl eq_refl).
Defined.

(** ** Calling close and terminate again *)

(** X21.  A second [terminate()] never ends the socket again, and changes
    nothing at all unless the session had a socket while Connecting.  A
    second [close()] on a session that was Open does nothing
    either and leaves the code and reason of the first call in place, and
    [terminate()] after it does not end the socket again.  On a session
    that was Connecting the first [close()] makes it Closed, so the second
    one throws 'not opened'. *)
Theorem second_calls (code data code' data' : JsData) (w : WebSocket) :
  effects (terminate (after (terminate w))) = [] /\
  ((_socket w = true -> _readyState w <> CONNECTING) ->
   terminate (after (terminate w))
   = {| completion := Normal tt; after := after (terminate w); effects := [] |}) /\
  (_readyState w = OPEN ->
   close code' data' (after (close code data w))
   = {| completion := Normal tt; after := after (close code data w);
        effects := [] |} /\
   _closeCode (after (close code data w)) = code /\
   _closeMessage (after (close code data w)) = data /\
   terminate (after (close code data w))
   = {| completion := Normal tt; after := after (close code data w);
        effects := [] |}) /\
  (_readyState w = CONNECTING ->
   close code' data' (after (close code data w))
   = {| completion := Throw not_opened; after := after (close code data w);
        effects := [] |}).
Proof.
  open_record w. split; [|split; [|split]].
  - destruct sock, rs; reflexivity.
  - intros H. destruct sock, rs; try reflexivity. now elim (H eq_refl).
  - intros ->. destruct sock; repeat split.
  - intros ->. reflexivity.
Qed.

Lemma second_calls_witness :
  _readyState open_server = OPEN /\
  snd (run [Call_close (DNumber 1000) (DString "bye");
            Call_close (DNumber 1001) (DString "again");
            Call_terminate] open_server)
  = [ToSender (Sender_close (DNumber 1000) (DString "bye") false); SocketEnd] /\
  _closeCode (after (close (DNumber 1000) (DString "bye") open_server))
  = DNumber 1000.
Proof.
  split; [reflexivity|]. split; [reflexivity|].
  exact (proj1 (proj2 (proj1 (proj2 (proj2
    (second_calls (DNumber 1000) (DString "bye") (DNumber 1001) (DString "again")
       open_server))) eq_refl))).
Defined.
